(** * Timezone resolution of [adk_agent/agent.py]

    A shallow embedding of [_normalize_city], [_search_timezones_by_city]
    and [get_current_time], and the properties of the city-to-timezone
    resolution that the specification states about them.

    Conventions of the embedding.
    - A Python [str] is a [string]; every character stands for one code
      point below 256, which covers all IANA identifiers (they are ASCII).
      Queries with code points from 256 on are outside the model.
    - [available_timezones()], [ZoneInfo(key)] and the clock are the
      standard library's: they are variables of the sections below.
    - Effects are explicit: a computation yields the list of the library
      calls it made, and either a value or the exception it raised. *)

From Stdlib Require Import Ascii.
From Stdlib Require String.
From stdpp Require Import base list sorting strings gmap.

(** ** Characters and strings as Python has them *)

Module Py.

(** [ord(c)]. *)
Definition ord (c : ascii) : nat := nat_of_ascii c.

(** [c.isspace()] for a code point below 256: the characters that
    [str.strip()] removes when it is called without an argument. *)
Definition isspace (c : ascii) : bool :=
  let n := ord c in
  ((9 <=? n) && (n <=? 13)) || ((28 <=? n) && (n <=? 32))
  || (n =? 133) || (n =? 160).

(** [c.lower()] for a code point below 256: A-Z, and the capital letters
    of Latin-1 (192-222 without the multiplication sign 215), move up
    by 32; everything else stays. *)
Definition lower_char (c : ascii) : ascii :=
  let n := ord c in
  if ((65 <=? n) && (n <=? 90))
     || ((192 <=? n) && (n <=? 222) && negb (n =? 215))
  then ascii_of_nat (n + 32) else c.

(** [s.lower()]. *)
Fixpoint lower (s : string) : string :=
  match s with
  | EmptyString => EmptyString
  | String c s' => String (lower_char c) (lower s')
  end.

(** [s.lstrip()]. *)
Fixpoint lstrip (s : string) : string :=
  match s with
  | EmptyString => EmptyString
  | String c s' => if isspace c then lstrip s' else s
  end.

(** [s.rstrip()]. *)
Fixpoint rstrip (s : string) : string :=
  match s with
  | EmptyString => EmptyString
  | String c s' =>
      match rstrip s' with
      | EmptyString => if isspace c then EmptyString else String c EmptyString
      | r => String c r
      end
  end.

(** [s.strip()]. *)
Definition strip (s : string) : string := rstrip (lstrip s).

(** [s.replace(old, new)] for one-character [old] and [new], the only
    way the source calls it. *)
Fixpoint replace (old new : ascii) (s : string) : string :=
  match s with
  | EmptyString => EmptyString
  | String c s' =>
      String (if Ascii.eqb c old then new else c) (replace old new s')
  end.

(** [re.sub(r"_+", "_", s)]: every maximal run of underscores becomes
    one underscore. *)
Fixpoint re_sub_underscores (s : string) : string :=
  match s with
  | EmptyString => EmptyString
  | String c s' =>
      if Ascii.eqb c "_"%char then
        match s' with
        | String c' _ =>
            if Ascii.eqb c' "_"%char then re_sub_underscores s'
            else String "_"%char (re_sub_underscores s')
        | EmptyString => String "_"%char EmptyString
        end
      else String c (re_sub_underscores s')
  end.

(** [s.split(sep)] for a one-character [sep]. The result is never
    empty: a string without [sep] is its own single piece. *)
Fixpoint split (sep : ascii) (s : string) : list string :=
  match s with
  | EmptyString => [EmptyString]
  | String c s' =>
      if Ascii.eqb c sep then EmptyString :: split sep s'
      else match split sep s' with
           | piece :: rest => String c piece :: rest
           | [] => [String c EmptyString]
           end
  end.

(** [sub in s] on strings. *)
Fixpoint contains (sub s : string) : bool :=
  String.prefix sub s
  || match s with
     | EmptyString => false
     | String _ s' => contains sub s'
     end.

(** [sorted(l)] on a list of strings, which Python compares with [<=]
    code point by code point ([String.le]). The order is total and
    antisymmetric, so the sorted list is unique and the stability of
    the sort cannot be observed. *)
Definition sorted (l : list string) : list string :=
  merge_sort String.le l.

End Py.

(** ** Values, exceptions and effects *)

(** An exception of class [Exception]: its class name and [str(e)]. *)
Record exn := Raise { exn_class : string; exn_str : string }.

(** The calls into the standard library that read the host. *)
Inductive call :=
  | CallAvailableTimezones
  | CallZoneInfo (key : string)
  | CallNow.

(** A computation: the calls it made, in order, and how it ended. *)
Record M (A : Type) := Run { calls : list call; outcome : exn + A }.
Arguments Run {A} _ _.
Arguments calls {A} _.
Arguments outcome {A} _.

#[export] Instance M_ret : MRet M := λ A a, Run [] (inr a).

#[export] Instance M_bind : MBind M := λ A B f m,
  match outcome m with
  | inl e => Run (calls m) (inl e)
  | inr a => Run (calls m ++ calls (f a)) (outcome (f a))
  end.

Definition raise {A} (e : exn) : M A := Run [] (inl e).

(** [try: body / except Exception as e: handler e]. *)
Definition try_except {A} (body : M A) (handler : exn → M A) : M A :=
  match outcome body with
  | inl e => Run (calls body ++ calls (handler e)) (outcome (handler e))
  | inr a => body
  end.

(** [l[i]] for [0 <= i]. *)
Definition getitem {A} (l : list A) (i : nat) : M A :=
  match l !! i with
  | Some x => mret x
  | None => raise (Raise "IndexError" "list index out of range")
  end.

(** An object that is neither [None], a bool, an int nor a str (a float,
    a list, a dict, an array, an instance), known by the outcomes of the
    operations the two tools perform on it, each of which returns or
    raises: its truth test (what [not city] asks), the comparison
    [city.lower() == "new york"] (an [AttributeError] when it has no
    such method), and its text in an f-string. *)
Record pyobject := PyObject {
  truth_test : exn + bool;
  lower_is_new_york : exn + bool;
  formatted : exn + string;
}.

(** What a caller may pass as [city]. *)
Inductive pyval :=
  | PNone
  | PBool (b : bool)
  | PInt (n : Z)
  | PStr (s : string)
  | PObject (o : pyobject).

(** [bool(v)], as [not v] computes it: the truth test of an object may
    raise. *)
Definition truthy (v : pyval) : M bool :=
  match v with
  | PNone => mret false
  | PBool b => mret b
  | PInt n => mret (negb (n =? 0)%Z)
  | PStr s => mret (negb (String.eqb s EmptyString))
  | PObject o => Run [] (truth_test o)
  end.

(** [isinstance(v, str)]. *)
Definition isinstance_str (v : pyval) : bool :=
  match v with PStr _ => true | _ => false end.

(** The fields of the dictionaries [get_current_time] returns. *)
Inductive field :=
  | FStr (s : string)
  | FNone
  | FList (l : list string).

Abbreviation result := (gmap string field).

(** The host: the timezone database and the clock, as the standard
    library shows them. [tzdata] lists the keys of
    [available_timezones()] in the order the returned set iterates (a set
    has no duplicates; no property below depends on it).
    [zoneinfo_load key] is what the constructor [ZoneInfo(key)] does: it
    gives the zone or raises. Reading the clock in a constructed zone and
    formatting the time do not raise. *)
Record host := Host {
  zone : Type;
  datetime : Type;
  tzdata : list string;
  zoneinfo_load : string → exn + zone;
  clock : zone → datetime;
  strftime : datetime → string → string;
}.

(** ** The agent's time tool *)

Section Agent.

Context (h : host).

(** [available_timezones()]. *)
Definition available_timezones : M (list string) :=
  Run [CallAvailableTimezones] (inr (tzdata h)).

(** [ZoneInfo(key)]: the zone, or the exception of the constructor. *)
Definition ZoneInfo (key : string) : M (zone h) :=
  Run [CallZoneInfo key] (zoneinfo_load h key).

(** [datetime.datetime.now(tz)]. *)
Definition datetime_now (tz : zone h) : M (datetime h) :=
  Run [CallNow] (inr (clock h tz)).

Definition _normalize_city (s : string) : string :=
  let s := Py.strip s in
  let s := Py.replace "-" "_" (Py.replace " " "_" s) in
  let s := Py.re_sub_underscores s in
  s.

(** [tz.split("/")[-1]]. *)
Definition final_segment (tz : string) : string :=
  default EmptyString (last (Py.split "/" tz)).

Definition _search_timezones_by_city (city : string) : M (list string) :=
  let norm := _normalize_city city in
  tzs ← available_timezones;
  let exact :=
    filter (λ tz, Py.lower (final_segment tz) = Py.lower norm) tzs in
  match exact with
  | _ :: _ => mret exact
  | [] =>
      let partial :=
        filter (λ tz, Py.contains (Py.lower norm)
                                  (Py.lower (final_segment tz)) = true) tzs in
      mret partial
  end.

(** The dictionaries of the five [return] statements. *)
Definition invalid_input : result :=
  {[ "status" := FStr "error";
     "error_message" :=
       FStr "Input must be a non-empty city or IANA timezone string." ]}.

Definition success (report timezone : string) : result :=
  {[ "status" := FStr "success";
     "report" := FStr report;
     "timezone" := FStr timezone;
     "candidates" := FNone ]}.

Definition unresolved (city : string) : result :=
  {[ "status" := FStr "error";
     "error_message" :=
       FStr ("Sorry, I couldn't resolve a timezone for '" +:+ city
             +:+ "'. Try an IANA name like 'Asia/Taipei'.") ]}.

Definition ambiguous (city : string) (candidates : list string) : result :=
  {[ "status" := FStr "error";
     "error_message" :=
       FStr ("Multiple timezones matched '" +:+ city
             +:+ "'. Please choose one from 'candidates'.");
     "candidates" := FList candidates ]}.

Definition construction_failed (city tz_name : string) (e : exn) : result :=
  {[ "status" := FStr "error";
     "error_message" :=
       FStr ("Failed to get time for '" +:+ city +:+ "' via timezone '"
             +:+ tz_name +:+ "': " +:+ exn_str e) ]}.

(** The f-string of the report. *)
Definition report_at (city : string) (now : datetime h) : string :=
  "The current time in " +:+ city +:+ " is "
  +:+ strftime h now "%Y-%m-%d %H:%M:%S %Z%z".

(** The body of both [try] blocks up to [report]: the zone of [key] is
    constructed, the clock is read, the report names [city]. *)
Definition time_report (city key : string) : M string :=
  tz ← ZoneInfo key;
  now ← datetime_now tz;
  mret (report_at city now).

(** Lines 93-122 of [get_current_time]: the resolution of a city name. *)
Definition get_current_time_by_city (city : string) : M result :=
  candidates ← _search_timezones_by_city city;
  match candidates with
  | [] => mret (unresolved city)
  | _ :: _ =>
      if bool_decide (1 < length candidates) then
        let top := Py.sorted candidates in
        mret (ambiguous city (take 10 top))
      else
        tz_name ← getitem candidates 0;
        try_except
          (report ← time_report city tz_name;
           mret (success report tz_name))
          (λ e, mret (construction_failed city tz_name e))
  end.

(** Lines 82-91: the direct attempt on a string with a slash. [Some] is
    the [return] inside [try]; [None] is control reaching line 93. *)
Definition direct_attempt (city : string) : M (option result) :=
  if Py.contains "/" city then
    try_except
      (report ← time_report city city;
       mret (Some (success report city)))
      (λ _, mret None)
  else mret None.

Definition get_current_time (city : pyval) : M result :=
  truth ← truthy city;
  if negb truth || negb (isinstance_str city) then
    mret invalid_input
  else
    match city with
    | PStr city =>
        returned ← direct_attempt city;
        match returned with
        | Some r => mret r
        | None => get_current_time_by_city city
        end
    | _ => raise (Raise "TypeError" "argument is not iterable")
    end.

End Agent.

(** ** A host to run the tool on *)

(** A host whose database holds [catalog], where the zones of [corrupt]
    cannot be constructed, and whose clock is frozen. *)
Definition fixed_host (catalog corrupt : list string) : host :=
  {| zone := string;
     datetime := string;
     tzdata := catalog;
     zoneinfo_load key :=
       if bool_decide (key ∈ catalog ∧ key ∉ corrupt) then inr key
       else inl (Raise "ZoneInfoNotFoundError"
                       ("'No time zone found with key " +:+ key +:+ "'"));
     clock tz := tz;
     strftime now fmt := "2025-01-01 08:00:00 CST+0800" |}.

Definition some_zones : list string :=
  [ "Asia/Taipei"; "America/New_York"; "Europe/London"; "UTC"; "Etc/UTC";
    "GMT-0"; "America/Argentina/Buenos_Aires"; "America/Indiana/Knox";
    "America/Knox_IN"; "America/North_Dakota/New_Salem"; "Asia/Tokyo";
    "Europe/Paris"; "Australia/Sydney"; "Africa/Cairo"; "Asia/Kolkata";
    "Europe/Rome"; "America/Toronto"; "America/Chicago"; "Asia/Hong_Kong";
    "Asia/Singapore"; "Europe/Lisbon"; "America/Bogota"; "Europe/Stockholm";
    "Africa/Johannesburg"; "America/Sao_Paulo" ].

(** ** The vocabulary of the specification *)

(** [c] is one of the characters of [s]. *)
Fixpoint occurs (c : ascii) (s : string) : bool :=
  match s with
  | EmptyString => false
  | String d s' => Ascii.eqb d c || occurs c s'
  end.

(** [s] is made of whitespace only (it may be empty). *)
Fixpoint blank (s : string) : bool :=
  match s with
  | EmptyString => true
  | String c s' => Py.isspace c && blank s'
  end.

(** [sub] is a substring of [s]. *)
Definition substring_of (sub s : string) : Prop :=
  ∃ pre post, s = pre +:+ sub +:+ post.

(** [seg] is the final path segment of [tz]: what follows its last slash,
    or all of it when it has none. *)
Definition final_segment_of (tz seg : string) : Prop :=
  occurs "/" seg = false ∧ (tz = seg ∨ ∃ pre, tz = pre +:+ "/" +:+ seg).

(** The two match passes, in the words of the specification. *)
Definition exact_match (norm tz : string) : Prop :=
  ∃ seg, final_segment_of tz seg ∧ Py.lower seg = Py.lower norm.

Definition partial_match (norm tz : string) : Prop :=
  ∃ seg, final_segment_of tz seg
         ∧ substring_of (Py.lower norm) (Py.lower seg).

(** The lexicographic order on strings, by code points. *)
Inductive lex_le : string → string → Prop :=
  | lex_le_empty s : lex_le EmptyString s
  | lex_le_less c d s t : Py.ord c < Py.ord d → lex_le (String c s) (String d t)
  | lex_le_next c s t : lex_le s t → lex_le (String c s) (String c t).

(** One of the three characters that separate the words of a city. *)
Definition separator (c : ascii) : Prop :=
  c = " "%char ∨ c = "-"%char ∨ c = "_"%char.

(** Queries that are spellings of one city: they differ by whitespace
    around the name, by the separator between two parts of the name, by
    a separator written more than once, or by the case of letters. A
    separator stands between two parts when a character that is not
    whitespace comes before it and another after it. *)
Inductive same_city : string → string → Prop :=
  | same_city_refl q : same_city q q
  | same_city_sym q1 q2 : same_city q1 q2 → same_city q2 q1
  | same_city_trans q1 q2 q3 :
      same_city q1 q2 → same_city q2 q3 → same_city q1 q3
  | same_city_around l r q :
      blank l = true → blank r = true → same_city (l +:+ q +:+ r) q
  | same_city_separator a b x y :
      separator a → separator b → blank x = false → blank y = false →
      same_city (x +:+ String a y) (x +:+ String b y)
  | same_city_repeated a b x y :
      separator a → separator b → blank x = false → blank y = false →
      same_city (x +:+ String a y) (x +:+ String a (String b y))
  | same_city_case q1 q2 :
      Py.lower q1 = Py.lower q2 → same_city q1 q2.

(** The candidate set of a query: the list that
    [_search_timezones_by_city] returns for it. *)
Definition candidates_of (h : host) (city : string) : list string :=
  match outcome (_search_timezones_by_city h city) with
  | inr candidates => candidates
  | inl _ => []
  end.

(** The outcomes of the specification, read off a returned dictionary. *)
Inductive resolution :=
  | Success (timezone report : string)
  | Ambiguous (candidates : list string)
  | Failure (reason : string)
  | Malformed.

Definition classify (r : result) : resolution :=
  match r !! "status" with
  | Some (FStr status) =>
      if String.eqb status "success" then
        match r !! "timezone", r !! "report", r !! "candidates" with
        | Some (FStr tz), Some (FStr report), Some FNone => Success tz report
        | _, _, _ => Malformed
        end
      else if String.eqb status "error" then
        match r !! "error_message", r !! "candidates" with
        | Some (FStr reason), None => Failure reason
        | Some (FStr _), Some (FList l) => Ambiguous l
        | _, _ => Malformed
        end
      else Malformed
  | _ => Malformed
  end.

(** [resolve_time] of the specification: what [get_current_time] returns,
    read as an outcome; [None] when it raises. *)
Definition resolve_time (h : host) (city : pyval) : option resolution :=
  match outcome (get_current_time h city) with
  | inr r => Some (classify r)
  | inl _ => None
  end.

(** The truth test of [city] returns: it does not raise. *)
Definition truth_test_returns (city : pyval) : Prop :=
  ∃ truth, truthy city = mret truth.

(** The reason of the input-validation failure. *)
Definition invalid_input_reason : string :=
  "Input must be a non-empty city or IANA timezone string.".

(** The reason of the unresolvable-name failure. *)
Definition unresolved_reason (city : string) : string :=
  "Sorry, I couldn't resolve a timezone for '" +:+ city
  +:+ "'. Try an IANA name like 'Asia/Taipei'.".

(** ** The agent's weather tool *)

(** The exception of [city.lower()] on [None], a bool or an int, which
    have no such method (for the other values it is not raised). *)
Definition no_lower (city : pyval) : exn :=
  let type_name :=
    match city with
    | PNone => "NoneType"
    | PBool _ => "bool"
    | PInt _ => "int"
    | PStr _ => "str"
    | PObject _ => "object"
    end in
  Raise "AttributeError"
        ("'" +:+ type_name +:+ "' object has no attribute 'lower'").

(** The dictionaries of the two [return] statements of [get_weather]. *)
Definition weather_report : result :=
  {[ "status" := FStr "success";
     "report" :=
       FStr "The weather in New York is sunny with a temperature of 25 degrees Celsius (77 degrees Fahrenheit)." ]}.

Definition weather_unavailable (city : string) : result :=
  {[ "status" := FStr "error";
     "error_message" :=
       FStr ("Weather information for '" +:+ city
             +:+ "' is not available.") ]}.

Definition get_weather (city : pyval) : M result :=
  match city with
  | PStr s =>
      if String.eqb (Py.lower s) "new york" then mret weather_report
      else mret (weather_unavailable s)
  | PObject o =>
      is_new_york ← Run [] (lower_is_new_york o);
      if is_new_york : bool then mret weather_report
      else
        text ← Run [] (formatted o);
        mret (weather_unavailable text)
  | PNone | PBool _ | PInt _ => raise (no_lower city)
  end.

(** ** The model configuration *)

(** [os.environ] after [load_dotenv()]. *)
Abbreviation environ := (gmap string string).

(** [os.getenv(key)]: [None] for a variable that is not set. *)
Definition getenv (env : environ) (key : string) : option string :=
  env !! key.

(** [bool(os.getenv(key))]: false for [None] and for the empty string. *)
Definition getenv_bool (env : environ) (key : string) : bool :=
  match getenv env key with
  | Some value => negb (String.eqb value EmptyString)
  | None => false
  end.

(** The keyword arguments of a call of the framework's [LiteLlm]. *)
Record LiteLlm_kwargs := {
  model : option string;
  api_base : option string;
  api_key : option string;
  extra_body : option (gmap string bool);
}.

(** [model_config.py]. [LiteLlm] is the framework's constructor, which
    gives a model or raises; [load_dotenv] is the library's update of the
    environment, [os_environ] the environment of the process. What the
    constructor gives is bound to [litellm_model]; what it raises leaves
    the module. *)
Definition litellm_model {Model : Type}
    (LiteLlm : LiteLlm_kwargs → exn + Model)
    (load_dotenv : environ → environ) (os_environ : environ) : exn + Model :=
  let env := load_dotenv os_environ in
  let API_BASE := getenv env "LITELLM_MODEL_API_BASE" in
  let API_KEY := getenv env "LITELLM_MODEL_API_KEY" in
  let MODEL_NAME := getenv env "LITELLM_MODEL_MODEL_NAME" in
  if getenv_bool env "LITELLM_MODEL_SPECIAL_TOKENS" then
    LiteLlm {| model := MODEL_NAME; api_base := API_BASE;
               api_key := API_KEY; extra_body := None |}
  else
    LiteLlm {| model := MODEL_NAME; api_base := API_BASE;
               api_key := API_KEY;
               extra_body := Some {[ "skip_special_tokens" := false ]} |}.

(** A constructor that requires the name of the model, as the
    framework's does, and keeps its arguments. *)
Definition strict_LiteLlm (kwargs : LiteLlm_kwargs) : exn + LiteLlm_kwargs :=
  match model kwargs with
  | Some _ => inr kwargs
  | None =>
      inl (Raise "ValidationError" "model: Input should be a valid string")
  end.

(** An object whose truth test raises and that has no [lower] method:
    an instance of a class whose [__bool__] raises [ValueError]. *)
Definition loud_object : pyval :=
  PObject
    {| truth_test := inl (Raise "ValueError" "no truth value");
       lower_is_new_york :=
         inl (Raise "AttributeError"
                    "'Loud' object has no attribute 'lower'");
       formatted := inr "<Loud object>" |}.

(** ** More vocabulary *)

(** [s] begins with a whitespace character. *)
Definition starts_space (s : string) : bool :=
  match s with
  | EmptyString => false
  | String c _ => Py.isspace c
  end.

(** [s] ends with a whitespace character. *)
Fixpoint ends_space (s : string) : bool :=
  match s with
  | EmptyString => false
  | String c EmptyString => Py.isspace c
  | String _ s' => ends_space s'
  end.

(** [s] is a normal form: what [_normalize_city] leaves of a query has no
    space, no hyphen, no underscore next to another, and no whitespace
    at either end. *)
Definition normal_form (s : string) : Prop :=
  occurs " " s = false ∧ occurs "-" s = false
  ∧ Py.contains "__" s = false
  ∧ starts_space s = false ∧ ends_space s = false.

#[export] Instance call_eq_dec : EqDecision call.
Proof. solve_decision. Defined.

(** How often a call occurs in a run. *)
Definition count_call (c : call) (cs : list call) : nat :=
  length (filter (λ c', c' = c) cs).

Example lower_ex : Py.lower "New_York/GMT-0" = "new_york/gmt-0".
Proof. reflexivity. Qed.
Example lower_latin1_ex : Py.lower_char (ascii_of_nat 201) = ascii_of_nat 233 /\ Py.lower_char (ascii_of_nat 215) = ascii_of_nat 215.
Proof. split; reflexivity. Qed.
Example strip_ex : Py.strip (String (ascii_of_nat 9) "  a b  ") = "a b".
Proof. reflexivity. Qed.
Example split_ex : Py.split "/"%char "America/Argentina/" = ["America"; "Argentina"; EmptyString].
Proof. reflexivity. Qed.
Example resub_ex : Py.re_sub_underscores "__a___b_c__" = "_a_b_c_".
Proof. reflexivity. Qed.
Example contains_ex : Py.contains "ork" "New_York" = true /\ Py.contains EmptyString EmptyString = true /\ Py.contains "x" "abc" = false.
Proof. repeat split; reflexivity. Qed.
Example sorted_ex : Py.sorted ["b"; "a/c"; "a"; "B"] = ["B"; "a"; "a/c"; "b"].
Proof. vm_compute. reflexivity. Qed.

(** ** Facts about characters *)

Ltac each_char c :=
  destruct c as [[] [] [] [] [] [] [] []]; vm_compute; try done.

Lemma lower_char_slash c : Py.lower_char c = "/"%char ↔ c = "/"%char.
Proof. split; each_char c. Qed.

Lemma isspace_lower_char c : Py.isspace (Py.lower_char c) = Py.isspace c.
Proof. each_char c. Qed.

Lemma eqb_lower_char_space c :
  Ascii.eqb (Py.lower_char c) " " = Ascii.eqb c " ".
Proof. each_char c. Qed.

Lemma eqb_lower_char_hyphen c :
  Ascii.eqb (Py.lower_char c) "-" = Ascii.eqb c "-".
Proof. each_char c. Qed.

Lemma eqb_lower_char_underscore c :
  Ascii.eqb (Py.lower_char c) "_" = Ascii.eqb c "_".
Proof. each_char c. Qed.

(** ** Facts about strings *)

Lemma append_cons c s t : String c s +:+ t = String c (s +:+ t).
Proof. done. Qed.

Lemma append_empty_l s : EmptyString +:+ s = s.
Proof. done. Qed.

Lemma append_assoc s t u : (s +:+ t) +:+ u = s +:+ t +:+ u.
Proof. induction s as [|c s IH]; [done|]. by rewrite !append_cons, IH. Qed.

Lemma occurs_app c s t : occurs c (s +:+ t) = occurs c s || occurs c t.
Proof.
  induction s as [|d s IH]; [done|]. rewrite append_cons. simpl.
  rewrite IH. by destruct (Ascii.eqb d c).
Qed.

Lemma occurs_lower_slash s : occurs "/" (Py.lower s) = occurs "/" s.
Proof.
  induction s as [|c s IH]; simpl; [done|]. rewrite IH. f_equal.
  destruct (Ascii.eqb_spec c "/") as [->|Hne]; [done|].
  apply Ascii.eqb_neq. by rewrite lower_char_slash.
Qed.

Lemma occurs_lstrip c s :
  Py.isspace c = false → occurs c (Py.lstrip s) = occurs c s.
Proof.
  intros Hc. induction s as [|d s IH]; simpl; [done|].
  destruct (Py.isspace d) eqn:Hd; [|done].
  rewrite IH. destruct (Ascii.eqb_spec d c) as [->|]; [congruence|done].
Qed.

Lemma occurs_rstrip c s :
  Py.isspace c = false → occurs c (Py.rstrip s) = occurs c s.
Proof.
  intros Hc. induction s as [|d s IH]; simpl; [done|].
  destruct (Py.rstrip s) as [|e r] eqn:Hr.
  - rewrite <- IH. simpl. destruct (Py.isspace d) eqn:Hd; simpl; [|done].
    destruct (Ascii.eqb_spec d c) as [->|]; [congruence|done].
  - simpl in *. by rewrite IH.
Qed.

Lemma occurs_replace c old new s :
  c ≠ old → c ≠ new → occurs c (Py.replace old new s) = occurs c s.
Proof.
  intros Ho Hn. induction s as [|d s IH]; simpl; [done|]. rewrite IH. f_equal.
  destruct (Ascii.eqb_spec d old) as [->|]; [|done].
  transitivity false; [|symmetry]; by apply Ascii.eqb_neq.
Qed.

Lemma occurs_re_sub c s :
  c ≠ "_"%char → occurs c (Py.re_sub_underscores s) = occurs c s.
Proof.
  intros Hc. induction s as [|d s IH]; [done|].
  cbn [Py.re_sub_underscores occurs].
  assert (Ascii.eqb "_" c = false) as Hu by by apply Ascii.eqb_neq.
  destruct (Ascii.eqb_spec d "_") as [->|].
  - destruct s as [|e s]; [done|].
    destruct (Ascii.eqb_spec e "_") as [->|].
    + rewrite IH. cbn [occurs]. by rewrite Hu.
    + cbn [occurs]. by rewrite IH.
  - cbn [occurs]. by rewrite IH.
Qed.

Lemma prefix_spec sub s :
  String.prefix sub s = true ↔ ∃ post, s = sub +:+ post.
Proof.
  revert s. induction sub as [|c sub IH]; intros s.
  - split; [eexists; done|]. by destruct s.
  - destruct s as [|d s]; simpl.
    + split; [done|]. by intros [? ?].
    + destruct (ascii_dec c d) as [->|Hne].
      * rewrite IH. split; intros [post H]; exists post;
          rewrite append_cons in *; congruence.
      * split; [done|]. intros [? H]. rewrite append_cons in H. congruence.
Qed.

Lemma contains_spec sub s : Py.contains sub s = true ↔ substring_of sub s.
Proof.
  unfold substring_of. induction s as [|c s IH].
  - cbn [Py.contains]. rewrite orb_false_r, prefix_spec. split.
    + intros [post ->]. by exists EmptyString, post.
    + intros ([|??] & post & H); [by exists post|done].
  - cbn [Py.contains]. rewrite orb_true_iff, prefix_spec, IH. split.
    + intros [[post ->]|(pre & post & ->)].
      * by exists EmptyString, post.
      * by exists (String c pre), post.
    + intros ([|d pre] & post & H); [left; by exists post|].
      right. exists pre, post. rewrite append_cons in H. congruence.
Qed.

Lemma contains_char c s : Py.contains (String c EmptyString) s = occurs c s.
Proof.
  induction s as [|d s IH]; [done|]. cbn [Py.contains occurs]. rewrite IH.
  f_equal. simpl. destruct (ascii_dec c d) as [->|Hne].
  - rewrite Ascii.eqb_refl. by destruct s.
  - symmetry. apply Ascii.eqb_neq. congruence.
Qed.

Lemma occurs_substring c sub s :
  substring_of sub s → occurs c sub = true → occurs c s = true.
Proof.
  intros (pre & post & ->) H. rewrite !occurs_app, H. by rewrite orb_true_r.
Qed.

(** ** Facts about [split] and final segments *)

Lemma split_cons sep s : ∃ piece rest, Py.split sep s = piece :: rest.
Proof.
  induction s as [|c s (piece & rest & IH)]; simpl; [by eauto|].
  destruct (Ascii.eqb c sep); [by eauto|]. rewrite IH. by eauto.
Qed.

Lemma split_without sep s : occurs sep s = false → Py.split sep s = [s].
Proof.
  induction s as [|c s IH]; simpl; [done|]. intros [Hc Hs]%orb_false_iff.
  by rewrite Hc, IH.
Qed.

Lemma split_app sep pre s :
  Py.split sep (pre +:+ String sep s) = Py.split sep pre ++ Py.split sep s.
Proof.
  induction pre as [|c pre IH].
  - rewrite append_empty_l. simpl. by rewrite Ascii.eqb_refl.
  - rewrite append_cons. simpl. rewrite IH.
    destruct (Ascii.eqb c sep); [done|].
    by destruct (split_cons sep pre) as (piece & rest & ->).
Qed.

(** A string has no [sep], or it is cut at its last [sep]. *)
Lemma last_occurrence sep s :
  occurs sep s = false
  ∨ ∃ pre seg, s = pre +:+ String sep seg ∧ occurs sep seg = false.
Proof.
  induction s as [|c s [IH|(pre & seg & -> & IH)]]; [by left| |].
  - simpl. destruct (Ascii.eqb_spec c sep) as [->|]; [|by left].
    right. by exists EmptyString, s.
  - right. by exists (String c pre), seg.
Qed.

Section FinalSegment.

Lemma final_segment_without tz :
  occurs "/" tz = false → final_segment tz = tz.
Proof. intros H. unfold final_segment. by rewrite split_without. Qed.

Lemma final_segment_app pre seg :
  occurs "/" seg = false → final_segment (pre +:+ String "/" seg) = seg.
Proof.
  intros H. unfold final_segment.
  by rewrite split_app, (split_without _ seg), last_snoc.
Qed.

(** [tz.split("/")[-1]] is the final path segment of [tz], and the only
    one. *)
Lemma final_segment_spec tz seg :
  final_segment_of tz seg ↔ final_segment tz = seg.
Proof.
  split.
  - intros [Hseg [->|[pre ->]]].
    + by apply final_segment_without.
    + by apply final_segment_app.
  - intros <-. destruct (last_occurrence "/" tz) as [H|(pre & seg & -> & H)].
    + rewrite final_segment_without by done. split; [done|by left].
    + rewrite final_segment_app by done. split; [done|]. right. by exists pre.
Qed.

Lemma final_segment_no_slash tz : occurs "/" (final_segment tz) = false.
Proof. by destruct (proj2 (final_segment_spec tz _) eq_refl). Qed.

Lemma exact_match_spec norm tz :
  exact_match norm tz ↔ Py.lower (final_segment tz) = Py.lower norm.
Proof.
  split.
  - by intros (seg & <-%final_segment_spec & H).
  - intros H. exists (final_segment tz). by rewrite final_segment_spec.
Qed.

Lemma partial_match_spec norm tz :
  partial_match norm tz
  ↔ Py.contains (Py.lower norm) (Py.lower (final_segment tz)) = true.
Proof.
  rewrite contains_spec. split.
  - by intros (seg & <-%final_segment_spec & H).
  - intros H. exists (final_segment tz). by rewrite final_segment_spec.
Qed.

Lemma normalize_keeps_slash city :
  occurs "/" (_normalize_city city) = occurs "/" city.
Proof.
  unfold _normalize_city, Py.strip.
  rewrite occurs_re_sub, !occurs_replace, occurs_rstrip, occurs_lstrip; done.
Qed.

(** A query with a slash matches no identifier, in either pass. *)
Lemma slash_never_matches city tz :
  occurs "/" city = true →
  ¬ exact_match (_normalize_city city) tz
  ∧ ¬ partial_match (_normalize_city city) tz.
Proof.
  intros Hcity.
  assert (occurs "/" (Py.lower (_normalize_city city)) = true) as Hnorm
    by by rewrite occurs_lower_slash, normalize_keeps_slash.
  assert (occurs "/" (Py.lower (final_segment tz)) = false) as Hseg
    by by rewrite occurs_lower_slash, final_segment_no_slash.
  split.
  - rewrite exact_match_spec. intros H. congruence.
  - rewrite partial_match_spec, contains_spec. intros H.
    pose proof (occurs_substring _ _ _ H Hnorm). congruence.
Qed.

End FinalSegment.

(** ** Facts about [strip] and [_normalize_city] *)

Section Normalize.

Lemma lstrip_blank s : blank s = true → Py.lstrip s = EmptyString.
Proof.
  induction s as [|c s IH]; simpl; [done|].
  intros [-> ?]%andb_true_iff. auto.
Qed.

Lemma lstrip_app_blank l s : blank l = true → Py.lstrip (l +:+ s) = Py.lstrip s.
Proof.
  induction l as [|c l IH]; [done|]. rewrite append_cons. simpl.
  intros [-> ?]%andb_true_iff. auto.
Qed.

Lemma lstrip_app x s :
  blank x = false → Py.lstrip (x +:+ s) = Py.lstrip x +:+ s.
Proof.
  induction x as [|c x IH]; [done|]. rewrite append_cons. simpl.
  destruct (Py.isspace c); simpl; auto.
Qed.

Lemma rstrip_blank s : blank s = true ↔ Py.rstrip s = EmptyString.
Proof.
  induction s as [|c s IH]; simpl; [done|].
  rewrite andb_true_iff, IH. destruct (Py.rstrip s).
  - destruct (Py.isspace c); split; try done. by intros [? _].
  - split; [by intros [_ ?]|done].
Qed.

Lemma rstrip_app_blank s r : blank r = true → Py.rstrip (s +:+ r) = Py.rstrip s.
Proof.
  intros Hr. induction s as [|c s IH].
  - rewrite append_empty_l. by apply rstrip_blank.
  - rewrite append_cons. simpl. by rewrite IH.
Qed.

Lemma rstrip_app s y :
  blank y = false → Py.rstrip (s +:+ y) = s +:+ Py.rstrip y.
Proof.
  intros Hy. induction s as [|c s IH]; [done|].
  rewrite !append_cons. simpl. rewrite IH.
  destruct (s +:+ Py.rstrip y) as [|d r] eqn:Hs; [|done].
  destruct s; [|done]. rewrite append_empty_l in Hs.
  apply rstrip_blank in Hs. congruence.
Qed.

(** Whitespace around a query is dropped. *)
Lemma strip_around l r q :
  blank l = true → blank r = true → Py.strip (l +:+ q +:+ r) = Py.strip q.
Proof.
  intros Hl Hr. unfold Py.strip. rewrite lstrip_app_blank by done.
  destruct (blank q) eqn:Hq.
  - rewrite (lstrip_blank q) by done. rewrite lstrip_app_blank by done.
    by rewrite lstrip_blank.
  - rewrite lstrip_app by done. by rewrite rstrip_app_blank.
Qed.

(** What stands between two parts of a name is not stripped. *)
Lemma strip_inner x z y :
  blank x = false → blank y = false →
  Py.strip (x +:+ z +:+ y) = Py.lstrip x +:+ z +:+ Py.rstrip y.
Proof.
  intros Hx Hy. unfold Py.strip. rewrite lstrip_app by done.
  by rewrite <- !append_assoc, rstrip_app.
Qed.

Lemma replace_app old new s t :
  Py.replace old new (s +:+ t) = Py.replace old new s +:+ Py.replace old new t.
Proof.
  induction s as [|c s IH]; [done|]. rewrite append_cons. simpl.
  by rewrite IH.
Qed.

Lemma replace_separator c :
  separator c →
  (if Ascii.eqb (if Ascii.eqb c " " then "_"%char else c) "-"
   then "_"%char
   else if Ascii.eqb c " " then "_"%char else c) = "_"%char.
Proof. by intros [->|[->| ->]]. Qed.

(** A run of underscores and the run with one more collapse alike. *)
Lemma re_sub_repeated x y :
  Py.re_sub_underscores (x +:+ String "_" (String "_" y))
  = Py.re_sub_underscores (x +:+ String "_" y).
Proof.
  induction x as [|c x IH]; [done|].
  rewrite !append_cons. cbn [Py.re_sub_underscores].
  destruct (Ascii.eqb c "_"); [|by rewrite IH].
  destruct x as [|e x]; [by rewrite !append_empty_l in *|].
  rewrite !append_cons in *. destruct (Ascii.eqb e "_"); by rewrite IH.
Qed.

(** [lower] goes through every step of the normalization. *)
Lemma lower_lstrip s : Py.lower (Py.lstrip s) = Py.lstrip (Py.lower s).
Proof.
  induction s as [|c s IH]; simpl; [done|]. rewrite isspace_lower_char.
  by destruct (Py.isspace c).
Qed.

Lemma lower_rstrip s : Py.lower (Py.rstrip s) = Py.rstrip (Py.lower s).
Proof.
  induction s as [|c s IH]; simpl; [done|].
  rewrite <- IH, isspace_lower_char.
  destruct (Py.rstrip s); simpl; [|done]. by destruct (Py.isspace c).
Qed.

Lemma lower_replace_space s :
  Py.lower (Py.replace " " "_" s) = Py.replace " " "_" (Py.lower s).
Proof.
  induction s as [|c s IH]; simpl; [done|].
  rewrite IH, eqb_lower_char_space. by destruct (Ascii.eqb c " ").
Qed.

Lemma lower_replace_hyphen s :
  Py.lower (Py.replace "-" "_" s) = Py.replace "-" "_" (Py.lower s).
Proof.
  induction s as [|c s IH]; simpl; [done|].
  rewrite IH, eqb_lower_char_hyphen. by destruct (Ascii.eqb c "-").
Qed.

Lemma lower_re_sub s :
  Py.lower (Py.re_sub_underscores s) = Py.re_sub_underscores (Py.lower s).
Proof.
  induction s as [|c s IH]; [done|].
  cbn [Py.re_sub_underscores Py.lower]. rewrite eqb_lower_char_underscore.
  destruct (Ascii.eqb c "_") eqn:Hc; [|cbn [Py.lower]; by rewrite IH].
  destruct s as [|e s]; [done|]. cbn [Py.lower] in *.
  rewrite eqb_lower_char_underscore.
  destruct (Ascii.eqb e "_"); [done|]. cbn [Py.lower]. by rewrite IH.
Qed.

Lemma lower_normalize s :
  Py.lower (_normalize_city s) = _normalize_city (Py.lower s).
Proof.
  unfold _normalize_city, Py.strip.
  by rewrite lower_re_sub, lower_replace_hyphen, lower_replace_space,
    lower_rstrip, lower_lstrip.
Qed.

Lemma normalize_blank s : blank s = true → _normalize_city s = EmptyString.
Proof.
  intros H. unfold _normalize_city, Py.strip. by rewrite lstrip_blank.
Qed.

Lemma blank_no_slash s : blank s = true → occurs "/" s = false.
Proof.
  induction s as [|c s IH]; simpl; [done|].
  intros [Hc ?]%andb_true_iff. rewrite IH by done.
  destruct (Ascii.eqb_spec c "/") as [->|]; done.
Qed.

Lemma lower_empty s : Py.lower s = EmptyString ↔ s = EmptyString.
Proof. by destruct s. Qed.

(** The empty string is in every string. *)
Lemma contains_empty s : Py.contains EmptyString s = true.
Proof. by destruct s. Qed.

Lemma filter_all {A} (P : A → Prop) `{!∀ x, Decision (P x)} (l : list A) :
  (∀ x, x ∈ l → P x) → filter P l = l.
Proof.
  induction l as [|x l IH]; intros Hall; [done|].
  rewrite filter_cons_True by (apply Hall; left).
  f_equal. apply IH. intros y Hy. apply Hall. by right.
Qed.

End Normalize.

(** ** Spellings of one city *)

Section SameCity.

Lemma replaced_inner a x y :
  separator a → blank x = false → blank y = false →
  Py.replace "-" "_" (Py.replace " " "_" (Py.strip (x +:+ String a y)))
  = Py.replace "-" "_" (Py.replace " " "_" (Py.lstrip x))
    +:+ String "_" (Py.replace "-" "_" (Py.replace " " "_" (Py.rstrip y))).
Proof.
  intros Ha Hx Hy.
  change (x +:+ String a y) with (x +:+ String a EmptyString +:+ y).
  rewrite strip_inner by done. rewrite !replace_app. simpl.
  by rewrite replace_separator, append_cons, append_empty_l.
Qed.

Lemma blank_cons_false c y : blank y = false → blank (String c y) = false.
Proof. intros H. simpl. rewrite H. apply andb_false_r. Qed.

Lemma normalize_separator a b x y :
  separator a → separator b → blank x = false → blank y = false →
  _normalize_city (x +:+ String a y) = _normalize_city (x +:+ String b y).
Proof.
  intros. unfold _normalize_city. by rewrite !replaced_inner.
Qed.

Lemma normalize_repeated a b x y :
  separator a → separator b → blank x = false → blank y = false →
  _normalize_city (x +:+ String a y)
  = _normalize_city (x +:+ String a (String b y)).
Proof.
  intros Ha Hb Hx Hy. unfold _normalize_city.
  rewrite replaced_inner by done.
  rewrite (replaced_inner a x (String b y)) by auto using blank_cons_false.
  change (String b y) with (String b EmptyString +:+ y).
  rewrite rstrip_app by done. rewrite !replace_app. simpl.
  rewrite replace_separator, append_cons, append_empty_l by done.
  by rewrite re_sub_repeated.
Qed.

(** Two spellings of one city have the same lower-case normal form. *)
Lemma same_city_key q1 q2 :
  same_city q1 q2 →
  Py.lower (_normalize_city q1) = Py.lower (_normalize_city q2).
Proof.
  induction 1 as [| | |l r q Hl Hr|a b x y|a b x y|q1 q2 H];
    try congruence.
  - unfold _normalize_city. by rewrite strip_around.
  - by rewrite (normalize_separator a b).
  - by rewrite (normalize_repeated a b).
  - by rewrite !lower_normalize, H.
Qed.

End SameCity.

(** ** Facts about [sorted] *)

Section Sorted.

Lemma ascii_compare_lt c d : Ascii.compare c d = Lt ↔ Py.ord c < Py.ord d.
Proof.
  unfold Ascii.compare, Py.ord, nat_of_ascii.
  rewrite N.compare_lt_iff. lia.
Qed.

Lemma ascii_compare_refl c : Ascii.compare c c = Eq.
Proof. unfold Ascii.compare. apply N.compare_refl. Qed.

(** [<=] on strings is the lexicographic order. *)
Lemma le_lex s t : String.le s t ↔ lex_le s t.
Proof.
  unfold String.le, String.leb. revert t.
  induction s as [|c s IH]; intros [|d t]; simpl.
  - split; [constructor|done].
  - split; [constructor|done].
  - split; [done|inversion 1].
  - destruct (Ascii.compare c d) eqn:Hcd.
    + apply Ascii.compare_eq_iff in Hcd as ->. rewrite IH. split.
      * by constructor.
      * inversion 1; subst; [lia|done].
    + split; [|done]. intros _. constructor. by apply ascii_compare_lt.
    + split; [done|].
      inversion 1 as [|c' d' s' t' Hlt|c' s' t' Hle]; subst.
      * apply ascii_compare_lt in Hlt. congruence.
      * by rewrite ascii_compare_refl in Hcd.
Qed.

Lemma Sorted_take {A} (R : relation A) n l :
  Sorted R l → Sorted R (take n l).
Proof.
  intros H. revert n.
  induction H as [|x l Hl IH Hhd]; intros [|n]; simpl; try constructor.
  - apply IH.
  - destruct Hhd; destruct n; simpl; by constructor.
Qed.

Lemma sorted_lex l : Sorted lex_le (Py.sorted l).
Proof.
  rewrite <- (list_fmap_id (Py.sorted l)).
  apply (Sorted_fmap id String.le lex_le).
  - intros x y. apply le_lex.
  - apply (Sorted_merge_sort String.le).
Qed.

Lemma sorted_permutation l : Py.sorted l ≡ₚ l.
Proof. apply merge_sort_Permutation. Qed.

(** The slice [sorted(l)[:10]]. *)
Lemma top_ten l :
  let top := take 10 (Py.sorted l) in
  Sorted lex_le top ∧ length top = min 10 (length l) ∧ top ⊆ l.
Proof.
  split_and!.
  - apply Sorted_take, sorted_lex.
  - by rewrite length_take, sorted_permutation.
  - intros x Hx%subseteq_take. by rewrite <- sorted_permutation.
Qed.

End Sorted.

(** ** Running the tool *)

(** Unfolding of the monad's operations. *)
Ltac run := unfold mbind, M_bind, mret, M_ret, try_except, raise; simpl.

(** Case analysis on the list that a [match] of the goal inspects. *)
Ltac case_list H :=
  match goal with
  | |- context [match ?l with [] => _ | _ :: _ => _ end] =>
      destruct l as [|? ?] eqn:H
  end.

Section Run.

Context (h : host).

Lemma bind_run {A B} cs (a : A) (f : A → M B) :
  Run cs (inr a) ≫= f = Run (cs ++ calls (f a)) (outcome (f a)).
Proof. done. Qed.

Lemma ret_bind {A B} (a : A) (f : A → M B) : mret a ≫= f = f a.
Proof. unfold mret, M_ret. rewrite bind_run. by destruct (f a). Qed.

Lemma search_run city :
  _search_timezones_by_city h city
  = Run [CallAvailableTimezones] (inr (candidates_of h city)).
Proof.
  unfold candidates_of, _search_timezones_by_city. run.
  by case_list Hf.
Qed.

(** The candidates are the exact matches when there are some, and the
    partial matches otherwise. *)
Lemma candidates_exact city tz0 :
  tz0 ∈ tzdata h → exact_match (_normalize_city city) tz0 →
  ∀ tz, tz ∈ candidates_of h city
        ↔ tz ∈ tzdata h ∧ exact_match (_normalize_city city) tz.
Proof.
  intros Hin Hex%exact_match_spec tz. rewrite exact_match_spec.
  unfold candidates_of, _search_timezones_by_city. run.
  case_list Hf; simpl.
  - by destruct (filter_nil_not_elem_of _ _ tz0 Hf Hex).
  - rewrite <- Hf, list_elem_of_filter. tauto.
Qed.

Lemma candidates_partial city :
  (∀ tz, tz ∈ tzdata h → ¬ exact_match (_normalize_city city) tz) →
  ∀ tz, tz ∈ candidates_of h city
        ↔ tz ∈ tzdata h ∧ partial_match (_normalize_city city) tz.
Proof.
  intros Hnone tz. rewrite partial_match_spec.
  unfold candidates_of, _search_timezones_by_city. run.
  case_list Hf; simpl.
  - rewrite list_elem_of_filter. tauto.
  - match type of Hf with _ = ?x :: ?l =>
      assert (x ∈ x :: l) as Hx by left;
      rewrite <- Hf, list_elem_of_filter, <- exact_match_spec in Hx;
      destruct Hx as [Hx ?]; by destruct (Hnone x)
    end.
Qed.

Lemma candidates_in_catalog city : candidates_of h city ⊆ tzdata h.
Proof.
  unfold candidates_of, _search_timezones_by_city. run.
  case_list Hf; simpl.
  - apply list_subseteq_filter.
  - rewrite <- Hf. apply list_subseteq_filter.
Qed.

Lemma candidates_slash city :
  occurs "/" city = true → candidates_of h city = [].
Proof.
  intros Hcity. unfold candidates_of, _search_timezones_by_city. run.
  case_list Hf; simpl.
  - apply elem_of_nil_inv. intros tz [Htz _]%list_elem_of_filter.
    apply partial_match_spec in Htz.
    by destruct (slash_never_matches city tz Hcity) as [_ []].
  - match type of Hf with _ = ?x :: ?l =>
      assert (x ∈ x :: l) as Hx by left;
      rewrite <- Hf, list_elem_of_filter, <- exact_match_spec in Hx;
      destruct Hx as [Hx _];
      by destruct (slash_never_matches city x Hcity) as [[] _]
    end.
Qed.

Lemma candidates_key q1 q2 :
  Py.lower (_normalize_city q1) = Py.lower (_normalize_city q2) →
  _search_timezones_by_city h q1 = _search_timezones_by_city h q2.
Proof.
  intros H. unfold _search_timezones_by_city. simpl. by rewrite H.
Qed.

Lemma time_report_ok city key tz :
  zoneinfo_load h key = inr tz →
  time_report h city key
  = Run [CallZoneInfo key; CallNow] (inr (report_at h city (clock h tz))).
Proof.
  intros H. unfold time_report, ZoneInfo, mbind, M_bind. simpl. by rewrite H.
Qed.

Lemma time_report_raise city key e :
  zoneinfo_load h key = inl e →
  time_report h city key = Run [CallZoneInfo key] (inl e).
Proof.
  intros H. unfold time_report, ZoneInfo, mbind, M_bind. simpl. by rewrite H.
Qed.

Lemma direct_none city :
  occurs "/" city = false → direct_attempt h city = Run [] (inr None).
Proof. intros H. unfold direct_attempt. by rewrite contains_char, H. Qed.

Lemma direct_ok city tz :
  occurs "/" city = true → zoneinfo_load h city = inr tz →
  direct_attempt h city
  = Run [CallZoneInfo city; CallNow]
        (inr (Some (success (report_at h city (clock h tz)) city))).
Proof.
  intros Hc Hz. unfold direct_attempt.
  by rewrite contains_char, Hc, (time_report_ok _ _ tz).
Qed.

Lemma direct_raise city e :
  occurs "/" city = true → zoneinfo_load h city = inl e →
  direct_attempt h city = Run [CallZoneInfo city] (inr None).
Proof.
  intros Hc Hz. unfold direct_attempt.
  by rewrite contains_char, Hc, (time_report_raise _ _ e).
Qed.

Lemma by_city_none city :
  candidates_of h city = [] →
  get_current_time_by_city h city
  = Run [CallAvailableTimezones] (inr (unresolved city)).
Proof.
  intros H. unfold get_current_time_by_city.
  by rewrite search_run, bind_run, H.
Qed.

Lemma by_city_many city :
  1 < length (candidates_of h city) →
  get_current_time_by_city h city
  = Run [CallAvailableTimezones]
        (inr (ambiguous city (take 10 (Py.sorted (candidates_of h city))))).
Proof.
  intros H. unfold get_current_time_by_city. rewrite search_run, bind_run.
  destruct (candidates_of h city) as [|x l] eqn:Hc; [simpl in H; lia|].
  by rewrite bool_decide_eq_true_2.
Qed.

Lemma by_city_one_ok city tz_name tz :
  candidates_of h city = [tz_name] → zoneinfo_load h tz_name = inr tz →
  get_current_time_by_city h city
  = Run [CallAvailableTimezones; CallZoneInfo tz_name; CallNow]
        (inr (success (report_at h city (clock h tz)) tz_name)).
Proof.
  intros Hc Hz. unfold get_current_time_by_city.
  rewrite search_run, bind_run, Hc. unfold getitem. simpl lookup.
  rewrite bool_decide_eq_false_2, ret_bind by (simpl; lia).
  rewrite (time_report_ok _ _ tz) by done. by run.
Qed.

Lemma by_city_one_raise city tz_name e :
  candidates_of h city = [tz_name] → zoneinfo_load h tz_name = inl e →
  get_current_time_by_city h city
  = Run [CallAvailableTimezones; CallZoneInfo tz_name]
        (inr (construction_failed city tz_name e)).
Proof.
  intros Hc Hz. unfold get_current_time_by_city.
  rewrite search_run, bind_run, Hc. unfold getitem. simpl lookup.
  rewrite bool_decide_eq_false_2, ret_bind by (simpl; lia).
  rewrite (time_report_raise _ _ e) by done. by run.
Qed.

(** A non-empty string passes the test of line 76. *)
Lemma get_current_time_str city :
  city ≠ EmptyString →
  get_current_time h (PStr city)
  = returned ← direct_attempt h city;
    match returned with
    | Some r => mret r
    | None => get_current_time_by_city h city
    end.
Proof.
  intros H. unfold get_current_time. cbn [truthy]. rewrite ret_bind.
  by destruct (String.eqb_spec city EmptyString).
Qed.

(** A value that is not a string and whose truth test returns is
    rejected by line 76. *)
Lemma get_current_time_not_str city :
  isinstance_str city = false → truth_test_returns city →
  get_current_time h city = Run [] (inr invalid_input).
Proof.
  intros Hstr [truth Htruth]. unfold get_current_time.
  by rewrite Htruth, ret_bind, Hstr, orb_true_r.
Qed.

(** An exception of the truth test is the exception of the call. *)
Lemma get_current_time_truth_raises o e :
  truth_test o = inl e → get_current_time h (PObject o) = Run [] (inl e).
Proof. intros H. unfold get_current_time. simpl. by rewrite H. Qed.

End Run.

(** ** The returned dictionaries as outcomes *)

Section Outcomes.

Lemma classify_success report tz :
  classify (success report tz) = Success tz report.
Proof. done. Qed.

Lemma classify_ambiguous city candidates :
  classify (ambiguous city candidates) = Ambiguous candidates.
Proof. done. Qed.

Lemma classify_invalid_input :
  classify invalid_input = Failure invalid_input_reason.
Proof. done. Qed.

Lemma classify_unresolved city :
  classify (unresolved city) = Failure (unresolved_reason city).
Proof. done. Qed.

Lemma classify_construction_failed city tz_name e :
  ∃ reason, classify (construction_failed city tz_name e) = Failure reason.
Proof. by eexists. Qed.

Lemma unresolved_reason_distinct city :
  unresolved_reason city ≠ invalid_input_reason.
Proof. done. Qed.

End Outcomes.

(** ** The properties of the specification *)

Section Properties.

Context (h : host).

(** C1, as amended. An identifier of the catalog that contains a slash
    and whose zone can be constructed is resolved directly:
    [get_current_time] returns Success and the [timezone] field is the
    identifier itself. Identifiers without a slash take the city-name
    path instead. *)
Theorem catalog_identifier_with_slash z tz :
  z ∈ tzdata h → Py.contains "/" z = true → zoneinfo_load h z = inr tz →
  let report := report_at h z (clock h tz) in
  get_current_time h (PStr z)
  = Run [CallZoneInfo z; CallNow] (inr (success report z))
  ∧ success report z !! "timezone" = Some (FStr z)
  ∧ resolve_time h (PStr z) = Some (Success z report).
Proof.
  intros _ Hz%eq_sym Hload report. rewrite contains_char in Hz.
  assert (z ≠ EmptyString) as Hne by by intros ->.
  assert (get_current_time h (PStr z)
          = Run [CallZoneInfo z; CallNow] (inr (success report z))) as Hrun.
  { by rewrite get_current_time_str, (direct_ok _ _ tz). }
  split_and!; [done|done|]. unfold resolve_time. by rewrite Hrun.
Qed.

(** C2. When some identifier of the catalog has the normalized query as
    its final path segment, case ignored, the candidates are exactly the
    identifiers that do, however many they are; the identifiers that
    contain the normalized query in their final segment are the
    candidates only when no identifier is an exact match. *)
Theorem exact_matches_before_partial city :
  let norm := _normalize_city city in
  ((∃ tz, tz ∈ tzdata h ∧ exact_match norm tz) →
   ∀ tz, tz ∈ candidates_of h city ↔ tz ∈ tzdata h ∧ exact_match norm tz)
  ∧ ((∀ tz, tz ∈ tzdata h → ¬ exact_match norm tz) →
     ∀ tz, tz ∈ candidates_of h city
           ↔ tz ∈ tzdata h ∧ partial_match norm tz).
Proof.
  split.
  - intros (tz0 & Hin & Hex). by apply (candidates_exact h city tz0).
  - apply candidates_partial.
Qed.

(** C3, as amended. For a query that is not the empty string and has
    two candidates or more, [get_current_time] returns Ambiguous; its
    candidates are the first ten of the sorted candidates: in
    lexicographic order, ten at most, all of them candidates. *)
Theorem ambiguous_sorted_and_capped city :
  city ≠ EmptyString → 1 < length (candidates_of h city) →
  let top := take 10 (Py.sorted (candidates_of h city)) in
  get_current_time h (PStr city)
  = Run [CallAvailableTimezones] (inr (ambiguous city top))
  ∧ resolve_time h (PStr city) = Some (Ambiguous top)
  ∧ Sorted lex_le top ∧ length top ≤ 10 ∧ top ⊆ candidates_of h city.
Proof.
  intros Hne Hmany top.
  assert (occurs "/" city = false) as Hslash.
  { destruct (occurs "/" city) eqn:Hs; [|done].
    rewrite candidates_slash in Hmany by done. simpl in Hmany. lia. }
  assert (get_current_time h (PStr city)
          = Run [CallAvailableTimezones] (inr (ambiguous city top))) as Hrun.
  { rewrite get_current_time_str, direct_none, bind_run by done.
    by rewrite by_city_many. }
  destruct (top_ten (candidates_of h city)) as (Hsorted & Hlen & Hsub).
  split_and!; [done| |done| |done].
  - unfold resolve_time. by rewrite Hrun.
  - fold top in Hlen. lia.
Qed.


(** C5. Two spellings of one city (whitespace around it, space, hyphen
    or underscore between its parts, a separator repeated, letters in
    either case) have the same candidates; so have "New York",
    "new_york" and "New-York". *)
Theorem spellings_share_candidates :
  (∀ q1 q2, same_city q1 q2 →
     _search_timezones_by_city h q1 = _search_timezones_by_city h q2
     ∧ candidates_of h q1 = candidates_of h q2)
  ∧ candidates_of h "New York" = candidates_of h "new_york"
  ∧ candidates_of h "new_york" = candidates_of h "New-York".
Proof.
  assert (∀ q1 q2,
            Py.lower (_normalize_city q1) = Py.lower (_normalize_city q2) →
            _search_timezones_by_city h q1 = _search_timezones_by_city h q2
            ∧ candidates_of h q1 = candidates_of h q2) as Hkey.
  { intros q1 q2 H%(candidates_key h). unfold candidates_of.
    by rewrite H. }
  split_and!.
  - intros q1 q2 H%same_city_key. by apply Hkey.
  - by apply Hkey.
  - by apply Hkey.
Qed.

(** The validation of line 76 where the truth test returns: the empty
    string, [None] and every value that is not a string and whose truth
    test returns get the input-validation failure at once; no call reads
    the catalog (or anything else of the host), and the result is the
    same on every host. *)
Theorem invalid_input_rejected (h' : host) city :
  city = PStr EmptyString ∨ city = PNone
  ∨ (isinstance_str city = false ∧ truth_test_returns city) →
  get_current_time h city = Run [] (inr invalid_input)
  ∧ resolve_time h city = Some (Failure invalid_input_reason)
  ∧ get_current_time h' city = get_current_time h city.
Proof.
  intros H.
  assert (∀ h0, get_current_time h0 city = Run [] (inr invalid_input)) as Hrun.
  { intros h0. destruct H as [->|[->|[Hstr Htruth]]]; [done|done|].
    by apply get_current_time_not_str. }
  split_and!; [done| |by rewrite !Hrun].
  unfold resolve_time. by rewrite Hrun.
Qed.

(** C6. The claim fails on a value that is not a string and whose truth
    test raises: line 76 evaluates [not city] before [isinstance], so on
    [loud_object] the exception of the truth test leaves
    [get_current_time], which does not return the input-validation
    failure. *)
Theorem raising_truth_test_not_rejected :
  isinstance_str loud_object = false
  ∧ get_current_time h loud_object
    = Run [] (inl (Raise "ValueError" "no truth value"))
  ∧ get_current_time h loud_object ≠ Run [] (inr invalid_input)
  ∧ resolve_time h loud_object ≠ Some (Failure invalid_input_reason).
Proof. by split_and!. Qed.

(** C7. A non-empty string without any candidate (after a failed direct
    attempt, when it has a slash) gets the unresolvable-name failure,
    whose reason is not that of the input-validation failure. *)
Theorem no_candidate_unresolved city :
  city ≠ EmptyString → candidates_of h city = [] →
  (Py.contains "/" city = true → ∃ e, zoneinfo_load h city = inl e) →
  outcome (get_current_time h (PStr city)) = inr (unresolved city)
  ∧ resolve_time h (PStr city) = Some (Failure (unresolved_reason city))
  ∧ unresolved_reason city ≠ invalid_input_reason
  ∧ unresolved city ≠ invalid_input.
Proof.
  intros Hne Hnone Hdirect. rewrite contains_char in Hdirect.
  assert (outcome (get_current_time h (PStr city)) = inr (unresolved city))
    as Hrun.
  { rewrite get_current_time_str by done.
    destruct (occurs "/" city) eqn:Hs.
    - destruct Hdirect as [e He]; [done|].
      by rewrite (direct_raise _ _ e), bind_run, by_city_none.
    - by rewrite direct_none, bind_run, by_city_none. }
  split_and!; [done| |apply unresolved_reason_distinct|].
  - unfold resolve_time. by rewrite Hrun.
  - intros H%(f_equal classify). done.
Qed.

(** Where the truth test of the input returns, [get_current_time] does
    not raise: it returns a dictionary that reads as Success, Ambiguous
    or Failure. In particular, when the zone of the only candidate
    cannot be constructed, the exception is caught and reported in the
    returned dictionary. *)
Theorem never_raises :
  (∀ city, truth_test_returns city →
           ∃ r, outcome (get_current_time h city) = inr r
                ∧ classify r ≠ Malformed)
  ∧ (∀ city tz_name e,
       city ≠ EmptyString → candidates_of h city = [tz_name] →
       zoneinfo_load h tz_name = inl e →
       outcome (get_current_time h (PStr city))
       = inr (construction_failed city tz_name e)).
Proof.
  assert (∀ city tz_name, city ≠ EmptyString →
            candidates_of h city = [tz_name] → occurs "/" city = false)
    as Hnoslash.
  { intros city tz_name _ Hone. destruct (occurs "/" city) eqn:Hs; [|done].
    by rewrite candidates_slash in Hone. }
  split.
  - intros city Htruth.
    assert (isinstance_str city = false →
            ∃ r, outcome (get_current_time h city) = inr r
                 ∧ classify r ≠ Malformed) as Hother.
    { intros Hstr. exists invalid_input. split; [|done].
      by rewrite get_current_time_not_str. }
    destruct city as [|b|n|city|o]; try by apply Hother.
    destruct (decide (city = EmptyString)) as [->|Hne].
    { by exists invalid_input. }
    rewrite get_current_time_str by done.
    assert (∃ r, outcome (get_current_time_by_city h city) = inr r
                 ∧ classify r ≠ Malformed) as (r & Hr & Hwf).
    { destruct (candidates_of h city) as [|x [|y l]] eqn:Hc.
      - exists (unresolved city). by rewrite by_city_none.
      - destruct (zoneinfo_load h x) as [e|tz] eqn:Hload.
        + exists (construction_failed city x e).
          by rewrite (by_city_one_raise _ _ x e).
        + exists (success (report_at h city (clock h tz)) x).
          by rewrite (by_city_one_ok _ _ x tz).
      - exists (ambiguous city (take 10 (Py.sorted (x :: y :: l)))).
        rewrite by_city_many, Hc; [done|]. rewrite Hc. simpl. lia. }
    destruct (occurs "/" city) eqn:Hs.
    + destruct (zoneinfo_load h city) as [e|tz] eqn:Hload.
      * exists r. by rewrite (direct_raise _ _ e), bind_run.
      * exists (success (report_at h city (clock h tz)) city).
        by rewrite (direct_ok _ _ tz).
    + exists r. by rewrite direct_none, bind_run.
  - intros city tz_name e Hne Hone Hload.
    rewrite get_current_time_str, direct_none, bind_run by eauto.
    by rewrite (by_city_one_raise _ _ tz_name e).
Qed.

(** C8. The claim fails on a value whose truth test raises: the test of
    line 76 stands outside every [try], so the exception leaves
    [get_current_time] and no dictionary is returned, for [loud_object]
    as for every such object. *)
Theorem truth_test_exception_escapes :
  outcome (get_current_time h loud_object)
  = inl (Raise "ValueError" "no truth value")
  ∧ resolve_time h loud_object = None
  ∧ ∀ o e, truth_test o = inl e →
           outcome (get_current_time h (PObject o)) = inl e.
Proof.
  split_and!; [done|done|]. intros o e H.
  by rewrite (get_current_time_truth_raises h o e).
Qed.

(** C9. A string with a slash whose zone cannot be constructed always
    ends in the unresolvable-name failure: the normalized query keeps
    its slash, no final path segment has one, so no identifier matches
    in either pass. *)
Theorem slash_fallthrough_unresolved city e :
  Py.contains "/" city = true → zoneinfo_load h city = inl e →
  get_current_time h (PStr city)
  = Run [CallZoneInfo city; CallAvailableTimezones] (inr (unresolved city))
  ∧ resolve_time h (PStr city) = Some (Failure (unresolved_reason city))
  ∧ Py.contains "/" (_normalize_city city) = true
  ∧ ∀ tz, Py.contains "/" (final_segment tz) = false
          ∧ ¬ exact_match (_normalize_city city) tz
          ∧ ¬ partial_match (_normalize_city city) tz.
Proof.
  intros Hs Hload. rewrite contains_char in Hs.
  assert (city ≠ EmptyString) as Hne by by intros ->.
  assert (get_current_time h (PStr city)
          = Run [CallZoneInfo city; CallAvailableTimezones]
                (inr (unresolved city))) as Hrun.
  { rewrite get_current_time_str, (direct_raise _ _ e), bind_run by done.
    by rewrite by_city_none by by apply candidates_slash. }
  split_and!; [done| | |].
  - unfold resolve_time. by rewrite Hrun.
  - by rewrite contains_char, normalize_keeps_slash.
  - intros tz. rewrite contains_char. split; [apply final_segment_no_slash|].
    by apply slash_never_matches.
Qed.

(** C10, as amended. A non-empty query of whitespace only is not
    rejected as invalid input: it normalizes to the empty string, every
    identifier of the catalog is a candidate (no identifier has an
    empty final segment), and with two identifiers or more the result
    is Ambiguous with the first ten of the sorted catalog: ten
    candidates when the catalog has ten identifiers, all of them when
    it has fewer. *)
Theorem whitespace_query_ambiguous city :
  city ≠ EmptyString → blank city = true →
  (∀ tz, tz ∈ tzdata h → final_segment tz ≠ EmptyString) →
  2 ≤ length (tzdata h) →
  let top := take 10 (Py.sorted (tzdata h)) in
  _normalize_city city = EmptyString
  ∧ candidates_of h city = tzdata h
  ∧ get_current_time h (PStr city)
    = Run [CallAvailableTimezones] (inr (ambiguous city top))
  ∧ resolve_time h (PStr city) = Some (Ambiguous top)
  ∧ ambiguous city top ≠ invalid_input
  ∧ Sorted lex_le top
  ∧ length top = min 10 (length (tzdata h)).
Proof.
  intros Hne Hblank Hsegments Hsize top.
  pose proof (normalize_blank _ Hblank) as Hnorm.
  assert (candidates_of h city = tzdata h) as Hall.
  { unfold candidates_of, _search_timezones_by_city. rewrite Hnorm. run.
    case_list Hf; simpl.
    - apply filter_all. intros tz _. apply contains_empty.
    - match type of Hf with _ = ?x :: ?l =>
        assert (x ∈ x :: l) as Hx by left;
        rewrite <- Hf, list_elem_of_filter in Hx;
        destruct Hx as [Hx Hin];
        apply (proj1 (lower_empty _)) in Hx;
        by destruct (Hsegments x Hin Hx)
      end. }
  assert (get_current_time h (PStr city)
          = Run [CallAvailableTimezones] (inr (ambiguous city top))) as Hrun.
  { rewrite get_current_time_str, direct_none, bind_run
      by auto using blank_no_slash.
    rewrite by_city_many; rewrite Hall; [done|lia]. }
  destruct (top_ten (tzdata h)) as (Hsorted & Hlen & _).
  split_and!; [done|done|done| | |done|done].
  - unfold resolve_time. by rewrite Hrun.
  - intros H%(f_equal classify). done.
Qed.

End Properties.

(** ** The properties on concrete hosts *)

(** C1 as stated fails: "UTC" is in the catalog next to "Etc/UTC", both
    zones can be constructed, and the query "UTC" is Ambiguous. *)
Lemma catalog_identifier_without_slash :
  let h := fixed_host ["Etc/UTC"; "UTC"] [] in
  "UTC" ∈ tzdata h
  ∧ zoneinfo_load h "UTC" = inr "UTC"
  ∧ resolve_time h (PStr "UTC") = Some (Ambiguous ["Etc/UTC"; "UTC"])
  ∧ ¬ ∃ report, resolve_time h (PStr "UTC") = Some (Success "UTC" report).
Proof.
  intros h.
  assert (resolve_time h (PStr "UTC") = Some (Ambiguous ["Etc/UTC"; "UTC"]))
    as Hrun by by vm_compute.
  split_and!; [compute_done|done|done|].
  intros [report H]. rewrite Hrun in H. discriminate.
Qed.

Lemma catalog_identifier_with_slash_witness :
  let h := fixed_host some_zones [] in
  "Asia/Taipei" ∈ tzdata h
  ∧ resolve_time h (PStr "Asia/Taipei")
    = Some (Success "Asia/Taipei"
              "The current time in Asia/Taipei is 2025-01-01 08:00:00 CST+0800").
Proof.
  intros h.
  assert ("Asia/Taipei" ∈ tzdata h) as Hin by compute_done.
  split; [exact Hin|].
  exact (proj2 (proj2 (catalog_identifier_with_slash h "Asia/Taipei"
                         "Asia/Taipei" Hin eq_refl eq_refl))).
Defined.

Lemma exact_matches_before_partial_witness :
  let h := fixed_host some_zones [] in
  candidates_of h "knox" = ["America/Indiana/Knox"]
  ∧ ("America/Knox_IN" ∈ candidates_of h "knox"
     ↔ "America/Knox_IN" ∈ tzdata h
       ∧ exact_match (_normalize_city "knox") "America/Knox_IN").
Proof.
  intros h. split; [by vm_compute|].
  apply (proj1 (exact_matches_before_partial h "knox")).
  exists "America/Indiana/Knox". split; [compute_done|].
  exists "Knox". split; [|done]. split; [done|].
  right. by exists "America/Indiana".
Defined.

(** C3 as stated fails at the empty query: the search would give it two
    candidates, and [get_current_time] rejects it as invalid input. *)
Lemma empty_query_not_ambiguous :
  let h := fixed_host ["Asia/Taipei"; "Europe/London"] [] in
  candidates_of h EmptyString = ["Asia/Taipei"; "Europe/London"]
  ∧ 1 < length (candidates_of h EmptyString)
  ∧ get_current_time h (PStr EmptyString) = Run [] (inr invalid_input)
  ∧ resolve_time h (PStr EmptyString) = Some (Failure invalid_input_reason).
Proof. intros h. split_and!; [done|compute_done|done|done]. Qed.

Lemma ambiguous_sorted_and_capped_witness :
  let h := fixed_host some_zones [] in
  length (candidates_of h "o") = 18
  ∧ resolve_time h (PStr "o")
    = Some (Ambiguous
              [ "Africa/Cairo"; "Africa/Johannesburg";
                "America/Argentina/Buenos_Aires"; "America/Bogota";
                "America/Chicago"; "America/Indiana/Knox"; "America/Knox_IN";
                "America/New_York"; "America/Sao_Paulo"; "America/Toronto" ]).
Proof.
  intros h. split; [by vm_compute|].
  assert ("o" ≠ EmptyString) as Hne by done.
  assert (1 < length (candidates_of h "o")) as Hmany by (vm_compute; lia).
  exact (proj1 (proj2 (ambiguous_sorted_and_capped h "o" Hne Hmany))).
Defined.


Lemma spellings_share_candidates_witness :
  let h := fixed_host some_zones [] in
  same_city "  New-York " "new__york"
  ∧ candidates_of h "  New-York " = candidates_of h "new__york"
  ∧ candidates_of h "new__york" = ["America/New_York"].
Proof.
  intros h.
  assert (same_city "  New-York " "new__york") as Hsame.
  { apply (same_city_trans _ "New-York").
    { by apply (same_city_around "  " " " "New-York"). }
    apply (same_city_trans _ "New_York").
    { apply (same_city_separator "-" "_" "New" "York");
        unfold separator; auto. }
    apply (same_city_trans _ "New__York").
    { apply (same_city_repeated "_" "_" "New" "York");
        unfold separator; auto. }
    by apply same_city_case. }
  split_and!; [exact Hsame| |by vm_compute].
  exact (proj2 (proj1 (spellings_share_candidates h) _ _ Hsame)).
Defined.

Lemma invalid_input_rejected_witness :
  let h := fixed_host some_zones [] in
  let h' := fixed_host [] [] in
  get_current_time h PNone = Run [] (inr invalid_input)
  ∧ get_current_time h (PInt 7) = Run [] (inr invalid_input)
  ∧ get_current_time h' (PStr EmptyString)
    = get_current_time h (PStr EmptyString).
Proof.
  intros h h'. split_and!.
  - exact (proj1 (invalid_input_rejected h h' PNone
                    (or_intror (or_introl eq_refl)))).
  - exact (proj1 (invalid_input_rejected h h' (PInt 7)
                    (or_intror (or_intror
                       (conj eq_refl (ex_intro _ true eq_refl)))))).
  - exact (proj2 (proj2 (invalid_input_rejected h h' (PStr EmptyString)
                           (or_introl eq_refl)))).
Defined.

Lemma no_candidate_unresolved_witness :
  let h := fixed_host some_zones [] in
  candidates_of h "Nonexistent_Place_Zzz" = []
  ∧ resolve_time h (PStr "Nonexistent_Place_Zzz")
    = Some (Failure "Sorry, I couldn't resolve a timezone for 'Nonexistent_Place_Zzz'. Try an IANA name like 'Asia/Taipei'.").
Proof.
  intros h.
  assert (candidates_of h "Nonexistent_Place_Zzz" = []) as Hnone
    by by vm_compute.
  split; [exact Hnone|].
  refine (proj1 (proj2 (no_candidate_unresolved h "Nonexistent_Place_Zzz"
                          _ Hnone _))); [done|].
  intros Hslash. vm_compute in Hslash. discriminate.
Defined.

Lemma never_raises_witness :
  let h := fixed_host some_zones ["Asia/Taipei"] in
  candidates_of h "Taipei" = ["Asia/Taipei"]
  ∧ outcome (get_current_time h (PStr "Taipei"))
    = inr (construction_failed "Taipei" "Asia/Taipei"
             (Raise "ZoneInfoNotFoundError"
                    "'No time zone found with key Asia/Taipei'")).
Proof.
  intros h.
  assert (candidates_of h "Taipei" = ["Asia/Taipei"]) as Hone by by vm_compute.
  split; [exact Hone|].
  refine (proj2 (never_raises h) "Taipei" "Asia/Taipei" _ _ Hone eq_refl).
  done.
Defined.

Lemma slash_fallthrough_unresolved_witness :
  let h := fixed_host some_zones [] in
  get_current_time h (PStr "Mars/Olympus_Mons")
  = Run [CallZoneInfo "Mars/Olympus_Mons"; CallAvailableTimezones]
        (inr (unresolved "Mars/Olympus_Mons")).
Proof.
  intros h.
  exact (proj1 (slash_fallthrough_unresolved h "Mars/Olympus_Mons"
                  (Raise "ZoneInfoNotFoundError"
                         "'No time zone found with key Mars/Olympus_Mons'")
                  eq_refl eq_refl)).
Defined.

(** C10 as stated fails on a catalog of two identifiers: the query of
    three spaces is Ambiguous with two candidates, not ten. *)
Lemma whitespace_query_two_candidates :
  let h := fixed_host ["Europe/London"; "Asia/Taipei"] [] in
  2 ≤ length (tzdata h)
  ∧ resolve_time h (PStr "   ")
    = Some (Ambiguous ["Asia/Taipei"; "Europe/London"])
  ∧ length ["Asia/Taipei"; "Europe/London"] ≠ 10.
Proof. intros h. split_and!; [compute_done|done|compute_done]. Qed.

Lemma whitespace_query_ambiguous_witness :
  let h := fixed_host some_zones [] in
  resolve_time h (PStr "   ")
  = Some (Ambiguous
            [ "Africa/Cairo"; "Africa/Johannesburg";
              "America/Argentina/Buenos_Aires"; "America/Bogota";
              "America/Chicago"; "America/Indiana/Knox"; "America/Knox_IN";
              "America/New_York"; "America/North_Dakota/New_Salem";
              "America/Sao_Paulo" ])
  ∧ resolve_time h (PStr "   ") ≠ Some (Failure invalid_input_reason).
Proof.
  intros h.
  assert ("   " ≠ EmptyString) as Hne by done.
  assert (∀ tz, tz ∈ tzdata h → final_segment tz ≠ EmptyString) as Hseg.
  { apply Forall_forall. compute_done. }
  assert (2 ≤ length (tzdata h)) as Hsize by (vm_compute; lia).
  pose proof (whitespace_query_ambiguous h "   " Hne eq_refl Hseg Hsize)
    as (_ & _ & _ & Hres & _).
  split; [exact Hres|]. rewrite Hres. discriminate.
Defined.

(** ** Normal forms of [_normalize_city] *)

Section NormalForm.

Lemma occurs_replaced old new s :
  old ≠ new → occurs old (Py.replace old new s) = false.
Proof.
  intros Hne. induction s as [|c s IH]; simpl; [done|]. rewrite IH, orb_false_r.
  destruct (Ascii.eqb_spec c old) as [->|Hc]; apply Ascii.eqb_neq; congruence.
Qed.

Lemma replace_absent old new s :
  occurs old s = false → Py.replace old new s = s.
Proof.
  induction s as [|c s IH]; simpl; [done|].
  intros [-> Hs]%orb_false_iff. by rewrite IH.
Qed.

Lemma occurs_lower c s :
  (∀ d, Ascii.eqb (Py.lower_char d) c = Ascii.eqb d c) →
  occurs c (Py.lower s) = occurs c s.
Proof.
  intros Hc. induction s as [|d s IH]; simpl; [done|]. by rewrite Hc, IH.
Qed.

(** Two underscores in a row: at the head, or further on. *)
Lemma contains_double_cons c s :
  Py.contains "__" (String c s)
  = (Ascii.eqb c "_"
     && match s with String d _ => Ascii.eqb d "_" | EmptyString => false end)
    || Py.contains "__" s.
Proof.
  cbn [Py.contains]. f_equal. apply Bool.eq_iff_eq_true.
  rewrite prefix_spec, andb_true_iff, Ascii.eqb_eq. split.
  - intros [post H]. change ("__" +:+ post) with (String "_" (String "_" post)) in H.
    injection H as -> ->. by rewrite Ascii.eqb_refl.
  - intros [-> H]. destruct s as [|d s]; [done|].
    apply Ascii.eqb_eq in H as ->. by exists s.
Qed.

Lemma re_sub_cons_other c s :
  Ascii.eqb c "_" = false →
  Py.re_sub_underscores (String c s) = String c (Py.re_sub_underscores s).
Proof. intros H. cbn [Py.re_sub_underscores]. by rewrite H. Qed.

Lemma re_sub_head s :
  match Py.re_sub_underscores s, s with
  | String c _, String d _ => c = d
  | EmptyString, EmptyString => True
  | _, _ => False
  end.
Proof.
  induction s as [|c s IH]; [done|]. cbn [Py.re_sub_underscores].
  destruct (Ascii.eqb_spec c "_") as [->|]; [|done].
  destruct s as [|e s]; [done|].
  destruct (Ascii.eqb_spec e "_") as [->|]; [|done].
  by destruct (Py.re_sub_underscores (String "_" s)).
Qed.

(** No two underscores in a row are left. *)
Lemma re_sub_no_double s : Py.contains "__" (Py.re_sub_underscores s) = false.
Proof.
  induction s as [|c s IH]; [done|]. cbn [Py.re_sub_underscores].
  destruct (Ascii.eqb c "_") eqn:Hc.
  - destruct s as [|e s]; [done|].
    destruct (Ascii.eqb e "_") eqn:He; [done|].
    rewrite contains_double_cons, IH, orb_false_r.
    rewrite re_sub_cons_other by done. by rewrite He, andb_false_r.
  - by rewrite contains_double_cons, IH, Hc.
Qed.

(** Without two underscores in a row nothing is collapsed. *)
Lemma re_sub_fixed s :
  Py.contains "__" s = false → Py.re_sub_underscores s = s.
Proof.
  induction s as [|c s IH]; [done|]. rewrite contains_double_cons.
  intros [Hhead Hs]%orb_false_iff. cbn [Py.re_sub_underscores].
  rewrite IH by done. destruct (Ascii.eqb_spec c "_") as [->|]; [|done].
  destruct s as [|e s]; [done|]. simpl in Hhead. by rewrite Hhead.
Qed.

Lemma ends_space_cons c d s :
  ends_space (String c (String d s)) = ends_space (String d s).
Proof. done. Qed.

Lemma lstrip_fixed s : starts_space s = false → Py.lstrip s = s.
Proof. destruct s as [|c s]; simpl; [done|]. by intros ->. Qed.

Lemma rstrip_fixed s : ends_space s = false → Py.rstrip s = s.
Proof.
  induction s as [|c s IH]; [done|]. destruct s as [|d s].
  - simpl. by intros ->.
  - rewrite ends_space_cons. intros H.
    change (Py.rstrip (String c (String d s)))
      with (match Py.rstrip (String d s) with
            | EmptyString =>
                if Py.isspace c then EmptyString else String c EmptyString
            | r => String c r
            end).
    by rewrite IH.
Qed.

Lemma starts_space_lstrip s : starts_space (Py.lstrip s) = false.
Proof.
  induction s as [|c s IH]; simpl; [done|].
  by destruct (Py.isspace c) eqn:Hc; simpl.
Qed.

Lemma starts_space_rstrip s :
  starts_space s = false → starts_space (Py.rstrip s) = false.
Proof.
  destruct s as [|c s]; simpl; [done|]. intros Hc.
  destruct (Py.rstrip s); simpl; [by rewrite Hc|done].
Qed.

Lemma ends_space_rstrip s : ends_space (Py.rstrip s) = false.
Proof.
  induction s as [|c s IH]; simpl; [done|].
  destruct (Py.rstrip s) as [|d r].
  - by destruct (Py.isspace c) eqn:Hc; simpl.
  - by rewrite ends_space_cons.
Qed.

Lemma starts_space_replace old new s :
  Py.isspace new = false → starts_space s = false →
  starts_space (Py.replace old new s) = false.
Proof.
  intros Hn. destruct s as [|c s]; simpl; [done|].
  by destruct (Ascii.eqb c old).
Qed.

Lemma ends_space_replace old new s :
  Py.isspace new = false → ends_space s = false →
  ends_space (Py.replace old new s) = false.
Proof.
  intros Hn. induction s as [|c s IH]; [done|]. destruct s as [|d s].
  - simpl. by destruct (Ascii.eqb c old).
  - rewrite ends_space_cons. intros H. specialize (IH H).
    change (Py.replace old new (String c (String d s)))
      with (String (if Ascii.eqb c old then new else c)
                   (Py.replace old new (String d s))).
    by destruct (Py.replace old new (String d s)) eqn:Hr.
Qed.

Lemma starts_space_re_sub s :
  starts_space (Py.re_sub_underscores s) = starts_space s.
Proof.
  pose proof (re_sub_head s) as H.
  destruct (Py.re_sub_underscores s), s; simpl; try done. by subst.
Qed.

Lemma ends_space_re_sub s :
  ends_space (Py.re_sub_underscores s) = ends_space s.
Proof.
  induction s as [|c s IH]; [done|]. destruct s as [|e s].
  - cbn [Py.re_sub_underscores]. by destruct (Ascii.eqb_spec c "_") as [->|].
  - pose proof (re_sub_head (String e s)) as Hhead.
    rewrite ends_space_cons, <- IH.
    change (Py.re_sub_underscores (String c (String e s)))
      with (if Ascii.eqb c "_"
            then if Ascii.eqb e "_" then Py.re_sub_underscores (String e s)
                 else String "_" (Py.re_sub_underscores (String e s))
            else String c (Py.re_sub_underscores (String e s))).
    destruct (Py.re_sub_underscores (String e s)) as [|e' r];
      [destruct Hhead|].
    by destruct (Ascii.eqb c "_"), (Ascii.eqb e "_").
Qed.

Lemma normalize_normal s : normal_form (_normalize_city s).
Proof.
  unfold normal_form, _normalize_city, Py.strip. split_and!.
  - by rewrite occurs_re_sub, occurs_replace, occurs_replaced.
  - by rewrite occurs_re_sub, occurs_replaced.
  - apply re_sub_no_double.
  - rewrite starts_space_re_sub.
    do 2 (apply starts_space_replace; [done|]).
    apply starts_space_rstrip, starts_space_lstrip.
  - rewrite ends_space_re_sub.
    do 2 (apply ends_space_replace; [done|]). apply ends_space_rstrip.
Qed.

Lemma normal_fixed s : normal_form s → _normalize_city s = s.
Proof.
  intros (Hspace & Hhyphen & Hdouble & Hstart & Hend).
  unfold _normalize_city, Py.strip.
  rewrite lstrip_fixed, rstrip_fixed by done.
  rewrite (replace_absent " ") by done. rewrite (replace_absent "-") by done.
  by apply re_sub_fixed.
Qed.

End NormalForm.

(** ** Further properties of the normalization *)

(** X1. What [_normalize_city] returns has no space and no hyphen, no two
    underscores in a row, and no whitespace at either end. *)
Theorem normalize_output_shape s :
  let norm := _normalize_city s in
  occurs " " norm = false ∧ occurs "-" norm = false
  ∧ ¬ substring_of "__" norm
  ∧ Py.strip norm = norm.
Proof.
  destruct (normalize_normal s) as (Hspace & Hhyphen & Hdouble & Hstart & Hend).
  split_and!; [done|done| |].
  - rewrite <- contains_spec. by rewrite Hdouble.
  - unfold Py.strip. by rewrite lstrip_fixed, rstrip_fixed.
Qed.

(** X2. [_normalize_city] is idempotent, and the strings it leaves
    unchanged are exactly the normal forms. *)
Theorem normalize_idempotent s :
  _normalize_city (_normalize_city s) = _normalize_city s
  ∧ (_normalize_city s = s ↔ normal_form s).
Proof.
  split.
  - apply normal_fixed, normalize_normal.
  - split; [|apply normal_fixed]. intros <-. apply normalize_normal.
Qed.

Lemma normalize_idempotent_witness :
  _normalize_city "  Ho Chi-Minh__City " = "Ho_Chi_Minh_City"
  ∧ _normalize_city "Ho_Chi_Minh_City" = "Ho_Chi_Minh_City".
Proof.
  split; [done|].
  apply (proj2 (proj2 (normalize_idempotent "Ho_Chi_Minh_City"))).
  by repeat split.
Defined.

(** X3. A character that is not whitespace, a hyphen or an underscore is
    neither dropped nor brought in by [_normalize_city]. *)
Theorem normalize_keeps_characters c s :
  Py.isspace c = false → c ≠ "-"%char → c ≠ "_"%char →
  occurs c (_normalize_city s) = occurs c s.
Proof.
  intros Hspace Hhyphen Hunder.
  assert (c ≠ " "%char) as Hne by by intros ->.
  unfold _normalize_city, Py.strip.
  by rewrite occurs_re_sub, !occurs_replace, occurs_rstrip, occurs_lstrip.
Qed.

Lemma normalize_keeps_characters_witness :
  occurs "." (_normalize_city " St. John's ") = occurs "." " St. John's ".
Proof. by apply (normalize_keeps_characters "." " St. John's "). Defined.

(** ** Further properties of the search *)

Section MoreSearch.

Context (h : host).

Lemma append_empty_r s : s +:+ EmptyString = s.
Proof. induction s as [|c s IH]; [done|]. by rewrite append_cons, IH. Qed.

Lemma contains_refl s : Py.contains s s = true.
Proof.
  apply contains_spec. exists EmptyString, EmptyString.
  by rewrite append_empty_l, append_empty_r.
Qed.

Lemma exact_is_partial norm tz : exact_match norm tz → partial_match norm tz.
Proof.
  rewrite exact_match_spec, partial_match_spec. intros ->. apply contains_refl.
Qed.

(** Some identifier of the catalog is an exact match, or none is. *)
Lemma exact_or_none norm :
  (∃ tz0, tz0 ∈ tzdata h ∧ exact_match norm tz0)
  ∨ (∀ tz, tz ∈ tzdata h → ¬ exact_match norm tz).
Proof.
  destruct (filter (λ tz, Py.lower (final_segment tz) = Py.lower norm)
                   (tzdata h)) as [|x l] eqn:Hf.
  - right. intros tz Hin Hex%exact_match_spec.
    by destruct (filter_nil_not_elem_of _ _ tz Hf Hex).
  - left. exists x. rewrite exact_match_spec.
    assert (x ∈ x :: l) as Hx by left.
    rewrite <- Hf, list_elem_of_filter in Hx. tauto.
Qed.

Lemma candidates_are_partial city tz :
  tz ∈ candidates_of h city →
  tz ∈ tzdata h ∧ partial_match (_normalize_city city) tz.
Proof.
  intros Htz.
  destruct (exact_or_none (_normalize_city city)) as [(tz0 & Hin & Hex)|Hnone].
  - apply (candidates_exact h city tz0 Hin Hex) in Htz as [? ?].
    auto using exact_is_partial.
  - by apply (candidates_partial h city Hnone) in Htz.
Qed.

Lemma candidates_sublist city : candidates_of h city `sublist_of` tzdata h.
Proof.
  unfold candidates_of, _search_timezones_by_city. run.
  case_list Hf; simpl; [|rewrite <- Hf]; apply sublist_filter.
Qed.

Lemma candidates_NoDup city : NoDup (tzdata h) → NoDup (candidates_of h city).
Proof. intros H. eapply sublist_NoDup; [done|apply candidates_sublist]. Qed.

(** X4. [_search_timezones_by_city] reads the catalog once and calls
    nothing else; what it returns is a selection of the catalog, in the
    order of the catalog, without an identifier twice when the catalog
    has none twice. *)
Theorem search_selects_from_catalog city :
  _search_timezones_by_city h city
  = Run [CallAvailableTimezones] (inr (candidates_of h city))
  ∧ candidates_of h city `sublist_of` tzdata h
  ∧ (NoDup (tzdata h) → NoDup (candidates_of h city)).
Proof.
  split_and!;
    [apply search_run|apply candidates_sublist|apply candidates_NoDup].
Qed.

(** X5. Every candidate, of either pass, is an identifier of the catalog
    whose final segment contains the normalized query, case ignored; and
    there is no candidate exactly when no identifier of the catalog is
    such a partial match. *)
Theorem candidates_contain_query city :
  (∀ tz, tz ∈ candidates_of h city →
     tz ∈ tzdata h ∧ partial_match (_normalize_city city) tz)
  ∧ (candidates_of h city = []
     ↔ ∀ tz, tz ∈ tzdata h → ¬ partial_match (_normalize_city city) tz).
Proof.
  split; [apply candidates_are_partial|]. split.
  - intros Hnil tz Hin Hpart.
    destruct (exact_or_none (_normalize_city city))
      as [(tz0 & Hin0 & Hex)|Hnone].
    + assert (tz0 ∈ candidates_of h city) as H0
        by by apply (candidates_exact h city tz0 Hin0 Hex).
      rewrite Hnil in H0. by apply elem_of_nil in H0.
    + assert (tz ∈ candidates_of h city) as H0
        by by apply (candidates_partial h city Hnone).
      rewrite Hnil in H0. by apply elem_of_nil in H0.
  - intros Hnone. apply elem_of_nil_inv. intros tz Htz.
    apply candidates_are_partial in Htz as [Hin Hpart]. by apply (Hnone tz).
Qed.

(** X6. An identifier whose final segment has a hyphen or a space (as
    "Etc/GMT-5") is an exact match of no query; when it is a candidate,
    it is one of the partial pass. *)
Theorem hyphen_segment_never_exact city tz :
  occurs "-" (final_segment tz) = true ∨ occurs " " (final_segment tz) = true →
  ¬ exact_match (_normalize_city city) tz
  ∧ (tz ∈ candidates_of h city →
     (∀ tz', tz' ∈ tzdata h → ¬ exact_match (_normalize_city city) tz')
     ∧ partial_match (_normalize_city city) tz).
Proof.
  intros Hseg.
  destruct (normalize_normal city) as (Hspace & Hhyphen & _).
  assert (¬ exact_match (_normalize_city city) tz) as Hnot.
  { rewrite exact_match_spec. intros Heq.
    destruct Hseg as [Hseg|Hseg].
    - rewrite <- (occurs_lower "-") in Hseg, Hhyphen
        by apply eqb_lower_char_hyphen. congruence.
    - rewrite <- (occurs_lower " ") in Hseg, Hspace
        by apply eqb_lower_char_space. congruence. }
  split; [done|]. intros Htz. split.
  - intros tz' Hin' Hex'.
    by apply (candidates_exact h city tz' Hin' Hex') in Htz as [_ ?].
  - by apply candidates_are_partial.
Qed.

End MoreSearch.

(** ** Further properties of [get_current_time] *)

Section MoreTime.

Context (h : host).

(** The six ways a call on a non-empty string ends. *)
Lemma get_current_time_cases q :
  q ≠ EmptyString →
  (occurs "/" q = true
   ∧ ∃ z, zoneinfo_load h q = inr z
          ∧ get_current_time h (PStr q)
            = Run [CallZoneInfo q; CallNow]
                  (inr (success (report_at h q (clock h z)) q)))
  ∨ (occurs "/" q = true
     ∧ get_current_time h (PStr q)
       = Run [CallZoneInfo q; CallAvailableTimezones] (inr (unresolved q)))
  ∨ (occurs "/" q = false ∧ candidates_of h q = []
     ∧ get_current_time h (PStr q)
       = Run [CallAvailableTimezones] (inr (unresolved q)))
  ∨ (occurs "/" q = false
     ∧ ∃ tz z, candidates_of h q = [tz] ∧ zoneinfo_load h tz = inr z
               ∧ get_current_time h (PStr q)
                 = Run [CallAvailableTimezones; CallZoneInfo tz; CallNow]
                       (inr (success (report_at h q (clock h z)) tz)))
  ∨ (occurs "/" q = false
     ∧ ∃ tz e, candidates_of h q = [tz] ∧ zoneinfo_load h tz = inl e
               ∧ get_current_time h (PStr q)
                 = Run [CallAvailableTimezones; CallZoneInfo tz]
                       (inr (construction_failed q tz e)))
  ∨ (occurs "/" q = false ∧ 1 < length (candidates_of h q)
     ∧ get_current_time h (PStr q)
       = Run [CallAvailableTimezones]
             (inr (ambiguous q (take 10 (Py.sorted (candidates_of h q)))))).
Proof.
  intros Hne. rewrite get_current_time_str by done.
  destruct (occurs "/" q) eqn:Hs.
  - destruct (zoneinfo_load h q) as [e|z] eqn:Hload.
    + right. left. split; [done|].
      rewrite (direct_raise _ _ e), bind_run by done.
      by rewrite by_city_none by by apply candidates_slash.
    + left. split; [done|]. exists z. by rewrite (direct_ok _ _ z).
  - rewrite direct_none, bind_run by done. do 2 right.
    destruct (candidates_of h q) as [|tz [|tz' l]] eqn:Hc.
    + left. by rewrite by_city_none.
    + destruct (zoneinfo_load h tz) as [e|z] eqn:Hload.
      * do 2 right. left. split; [done|]. exists tz, e.
        by rewrite (by_city_one_raise _ _ tz e).
      * right. left. split; [done|]. exists tz, z.
        by rewrite (by_city_one_ok _ _ tz z).
    + do 3 right. assert (1 < length (candidates_of h q)) as Hmany
        by (rewrite Hc; simpl; lia).
      rewrite by_city_many by done. by rewrite Hc in *.
Qed.

(** An input that is not a non-empty string is rejected, or its truth
    test raises; nothing of the host is called. *)
Lemma get_current_time_invalid city :
  (∀ q, city = PStr q → q = EmptyString) →
  get_current_time h city = Run [] (inr invalid_input)
  ∨ ∃ e, get_current_time h city = Run [] (inl e).
Proof.
  intros H. destruct city as [|b|n|q|o].
  - by left.
  - left. apply get_current_time_not_str; [done|by eexists].
  - left. apply get_current_time_not_str; [done|by eexists].
  - left. by rewrite (H q).
  - destruct (truth_test o) as [e|truth] eqn:Ho.
    + right. exists e. by apply get_current_time_truth_raises.
    + left. apply get_current_time_not_str; [done|].
      exists truth. simpl. by rewrite Ho.
Qed.

Lemma singleton_of_unique {A} (l : list A) x :
  NoDup l → (∀ y, y ∈ l ↔ y = x) → l = [x].
Proof.
  intros Hnodup Hiff. destruct l as [|a l].
  - assert (x ∈ []) as Hx by by apply Hiff. by apply elem_of_nil in Hx.
  - assert (a = x) as -> by (apply Hiff; left).
    apply NoDup_cons in Hnodup as [Hnotin _]. f_equal.
    apply elem_of_nil_inv. intros y Hy.
    assert (y = x) as -> by (apply Hiff; by right). done.
Qed.

Lemma input_cases city :
  (∀ q, city = PStr q → q = EmptyString)
  ∨ ∃ q, city = PStr q ∧ q ≠ EmptyString.
Proof.
  destruct city as [|b|n|q|t]; try by left.
  destruct (decide (q = EmptyString)) as [->|Hne].
  - left. by intros ? [= <-].
  - right. eauto.
Qed.

Lemma resolve_time_invalid city :
  (∀ q, city = PStr q → q = EmptyString) →
  resolve_time h city = Some (Failure invalid_input_reason)
  ∨ resolve_time h city = None.
Proof.
  intros H. unfold resolve_time.
  destruct (get_current_time_invalid city H) as [->|[e ->]]; auto.
Qed.

(** Reading a run that is known. *)
Ltac known_run H :=
  unfold resolve_time; rewrite H; cbn [calls outcome];
  rewrite ?classify_success, ?classify_ambiguous, ?classify_unresolved.

(** X7. When one identifier of a catalog without duplicates is the only
    exact match of a non-empty query and its zone can be constructed,
    [get_current_time] returns Success with that identifier, after one
    reading of the catalog, one construction and one reading of the
    clock; the report names the query as it was typed. *)
Theorem unique_exact_match_resolves q tz z :
  q ≠ EmptyString → NoDup (tzdata h) → tz ∈ tzdata h →
  exact_match (_normalize_city q) tz →
  (∀ tz', tz' ∈ tzdata h → exact_match (_normalize_city q) tz' → tz' = tz) →
  zoneinfo_load h tz = inr z →
  get_current_time h (PStr q)
  = Run [CallAvailableTimezones; CallZoneInfo tz; CallNow]
        (inr (success (report_at h q (clock h z)) tz))
  ∧ resolve_time h (PStr q) = Some (Success tz (report_at h q (clock h z))).
Proof.
  intros Hne Hnodup Hin Hex Honly Hload.
  assert (candidates_of h q = [tz]) as Hone.
  { apply singleton_of_unique.
    - by apply candidates_NoDup.
    - intros y. rewrite (candidates_exact h q tz Hin Hex). split.
      + intros [? ?]. by apply Honly.
      + by intros ->. }
  assert (occurs "/" q = false) as Hslash.
  { destruct (occurs "/" q) eqn:Hs; [|done].
    by rewrite candidates_slash in Hone. }
  assert (get_current_time h (PStr q)
          = Run [CallAvailableTimezones; CallZoneInfo tz; CallNow]
                (inr (success (report_at h q (clock h z)) tz))) as Hrun.
  { rewrite get_current_time_str, direct_none, bind_run by done.
    by rewrite (by_city_one_ok _ _ tz z). }
  split; [done|]. by known_run Hrun.
Qed.

(** X8. A Success is never made up: its timezone is a key whose zone
    [ZoneInfo] constructed, the report is the one of that zone's clock,
    and the key is the query itself (a string with a slash) or the only
    candidate of the query. *)
Theorem success_names_constructed_zone city tz report :
  resolve_time h city = Some (Success tz report) →
  ∃ q z, city = PStr q ∧ q ≠ EmptyString
         ∧ zoneinfo_load h tz = inr z
         ∧ report = report_at h q (clock h z)
         ∧ ((Py.contains "/" q = true ∧ tz = q)
            ∨ (Py.contains "/" q = false ∧ candidates_of h q = [tz]
               ∧ tz ∈ tzdata h)).
Proof.
  intros Hres.
  destruct (input_cases city) as [Hbad|(q & -> & Hne)].
  { destruct (resolve_time_invalid city Hbad) as [H|H];
      rewrite H in Hres; discriminate. }
  exists q. rewrite contains_char.
  destruct (get_current_time_cases q Hne)
    as [(Hs & z & Hload & Hrun)|[(Hs & Hrun)|[(Hs & Hc & Hrun)
       |[(Hs & tz' & z & Hc & Hload & Hrun)
        |[(Hs & tz' & e & Hc & Hload & Hrun)|(Hs & Hmany & Hrun)]]]]];
    revert Hres; known_run Hrun; intros Hres; try discriminate.
  - injection Hres as <- <-. exists z. split_and!; auto.
  - injection Hres as <- <-. exists z. split_and!; auto. right.
    split_and!; [done|done|]. apply (candidates_are_partial h q).
    rewrite Hc. left.
Qed.

(** X9. Whatever the input, one call of [get_current_time] reads the
    catalog at most once, constructs at most one zone and reads the
    clock at most once; the clock is read exactly when the result is a
    Success. *)
Theorem call_discipline city :
  let cs := calls (get_current_time h city) in
  count_call CallAvailableTimezones cs ≤ 1
  ∧ count_call CallNow cs ≤ 1
  ∧ (∀ k k', CallZoneInfo k ∈ cs → CallZoneInfo k' ∈ cs →
             k = k' ∧ count_call (CallZoneInfo k) cs = 1)
  ∧ (CallNow ∈ cs
     ↔ ∃ tz report, resolve_time h city = Some (Success tz report)).
Proof.
  intros cs. subst cs.
  destruct (input_cases city) as [Hbad|(q & -> & Hne)].
  { assert (calls (get_current_time h city) = []) as ->.
    { by destruct (get_current_time_invalid city Hbad) as [->|[e ->]]. }
    split_and!; [by compute; lia|by compute; lia| |].
    - by intros k k' ?%elem_of_nil.
    - split; [by intros ?%elem_of_nil|]. intros (tz & report & Hres).
      destruct (resolve_time_invalid city Hbad) as [H|H];
        rewrite H in Hres; discriminate. }
  destruct (get_current_time_cases q Hne)
    as [(Hs & z & Hload & Hrun)|[(Hs & Hrun)|[(Hs & Hc & Hrun)
       |[(Hs & tz' & z & Hc & Hload & Hrun)
        |[(Hs & tz' & e & Hc & Hload & Hrun)|(Hs & Hmany & Hrun)]]]]];
    known_run Hrun; unfold count_call;
    (split_and!; [simpl; lia|simpl; lia| |]).
  all: try (intros k k' Hk Hk'; set_unfold in Hk; set_unfold in Hk';
            destruct_or?; simplify_eq;
            try (split; [done|];
                 repeat (rewrite ?filter_cons_True, ?filter_cons_False,
                           ?filter_nil by done);
                 done);
            fail).
  all: split;
    [ intros Hin; set_unfold in Hin; destruct_or?; simplify_eq; eauto
    | intros (tz0 & report & Hres); try discriminate; set_unfold; auto ].
Qed.

(** X10. An Ambiguous result, for whatever input, offers at least two
    and at most ten identifiers; all are identifiers of the catalog whose
    final segment contains the normalized query, and none comes twice
    when the catalog has none twice. *)
Theorem ambiguous_offers_catalog_identifiers city l :
  resolve_time h city = Some (Ambiguous l) →
  ∃ q, city = PStr q
       ∧ l = take 10 (Py.sorted (candidates_of h q))
       ∧ 2 ≤ length l ≤ 10
       ∧ (∀ tz, tz ∈ l →
            tz ∈ tzdata h ∧ partial_match (_normalize_city q) tz)
       ∧ (NoDup (tzdata h) → NoDup l).
Proof.
  intros Hres.
  destruct (input_cases city) as [Hbad|(q & -> & Hne)].
  { destruct (resolve_time_invalid city Hbad) as [H|H];
      rewrite H in Hres; discriminate. }
  exists q.
  destruct (get_current_time_cases q Hne)
    as [(Hs & z & Hload & Hrun)|[(Hs & Hrun)|[(Hs & Hc & Hrun)
       |[(Hs & tz' & z & Hc & Hload & Hrun)
        |[(Hs & tz' & e & Hc & Hload & Hrun)|(Hs & Hmany & Hrun)]]]]];
    revert Hres; known_run Hrun; intros Hres; try discriminate.
  injection Hres as <-.
  destruct (top_ten (candidates_of h q)) as (Hsorted & Hlen & Hsub).
  split_and!; [done|done|lia|lia| |].
  - intros tz Htz%Hsub. by apply candidates_are_partial.
  - intros Hnodup. eapply sublist_NoDup; [|apply sublist_take].
    rewrite sorted_permutation. by apply candidates_NoDup.
Qed.

(** X11. An exact match without a slash cannot be chosen by asking for
    it: it has the same candidates as the query that offered it, so when
    these are two or more, the answer to it is the same Ambiguous
    result (as "UTC" beside "Etc/UTC"). *)
Theorem slashless_exact_match_is_a_dead_end q c :
  q ≠ EmptyString → c ≠ EmptyString →
  c ∈ candidates_of h q → exact_match (_normalize_city q) c →
  Py.contains "/" c = false →
  candidates_of h c = candidates_of h q
  ∧ (1 < length (candidates_of h q) →
     resolve_time h (PStr c) = resolve_time h (PStr q)
     ∧ resolve_time h (PStr c)
       = Some (Ambiguous (take 10 (Py.sorted (candidates_of h q))))).
Proof.
  intros Hq Hc _ Hex Hslash. rewrite contains_char in Hslash.
  apply exact_match_spec in Hex. rewrite final_segment_without in Hex by done.
  assert (Py.lower (_normalize_city c) = Py.lower (_normalize_city q)) as Hkey.
  { rewrite lower_normalize, Hex, <- lower_normalize.
    by rewrite (normal_fixed _ (normalize_normal q)). }
  assert (candidates_of h c = candidates_of h q) as Hsame.
  { unfold candidates_of. by rewrite (candidates_key h c q Hkey). }
  split; [done|]. intros Hmany.
  assert (∀ x, x ≠ EmptyString → candidates_of h x = candidates_of h q →
            resolve_time h (PStr x)
            = Some (Ambiguous (take 10 (Py.sorted (candidates_of h q)))))
    as Hamb.
  { intros x Hx Hcand.
    assert (occurs "/" x = false) as Hs.
    { destruct (occurs "/" x) eqn:Hs; [|done].
      rewrite <- Hcand, candidates_slash in Hmany by done. simpl in Hmany. lia. }
    unfold resolve_time.
    rewrite get_current_time_str, direct_none, bind_run by done.
    rewrite by_city_many by by rewrite Hcand.
    by rewrite Hcand. }
  by rewrite !Hamb.
Qed.

(** X12. An identifier of the catalog without a slash that is its own
    normal form is always one of its own candidates; asked for, it is
    never reported as unresolvable. *)
Theorem slashless_identifier_finds_itself z :
  z ∈ tzdata h → z ≠ EmptyString → Py.contains "/" z = false →
  _normalize_city z = z →
  z ∈ candidates_of h z
  ∧ resolve_time h (PStr z) ≠ Some (Failure (unresolved_reason z)).
Proof.
  intros Hin Hne Hslash Hnorm. rewrite contains_char in Hslash.
  assert (exact_match (_normalize_city z) z) as Hex.
  { apply exact_match_spec. by rewrite Hnorm, final_segment_without. }
  assert (z ∈ candidates_of h z) as Hself
    by by apply (candidates_exact h z z Hin Hex).
  split; [done|].
  destruct (get_current_time_cases z Hne)
    as [(Hs & z0 & Hload & Hrun)|[(Hs & Hrun)|[(Hs & Hc & Hrun)
       |[(Hs & tz' & z0 & Hc & Hload & Hrun)
        |[(Hs & tz' & e & Hc & Hload & Hrun)|(Hs & Hmany & Hrun)]]]]];
    try congruence; known_run Hrun; try discriminate.
  rewrite Hc in Hself. by apply elem_of_nil in Hself.
Qed.

(** A query without a slash is a Success for [tz] exactly when [tz] is
    its only candidate and the zone of [tz] can be constructed. *)
Lemma success_iff q tz :
  q ≠ EmptyString → occurs "/" q = false →
  (∃ report, resolve_time h (PStr q) = Some (Success tz report))
  ↔ candidates_of h q = [tz] ∧ ∃ z, zoneinfo_load h tz = inr z.
Proof.
  intros Hne Hslash.
  destruct (get_current_time_cases q Hne)
    as [(Hs & z & Hload & Hrun)|[(Hs & Hrun)|[(Hs & Hc & Hrun)
       |[(Hs & tz' & z & Hc & Hload & Hrun)
        |[(Hs & tz' & e & Hc & Hload & Hrun)|(Hs & Hmany & Hrun)]]]]];
    try congruence; known_run Hrun.
  - split; [by intros [? ?]|]. intros [Hone _]. congruence.
  - split.
    + intros [report [= <- _]]. eauto.
    + intros [Hone _]. rewrite Hc in Hone. injection Hone as <-. eauto.
  - split; [by intros [? ?]|]. intros [Hone [z Hz]].
    rewrite Hc in Hone. injection Hone as <-. congruence.
  - split; [by intros [? ?]|]. intros [Hone _]. rewrite Hone in Hmany.
    simpl in Hmany. lia.
Qed.

End MoreTime.

(** ** Properties of [get_weather] *)

Section Weather.

Lemma length_lower s : String.length (Py.lower s) = String.length s.
Proof. induction s as [|c s IH]; simpl; congruence. Qed.

Lemma length_append s t :
  String.length (s +:+ t) = String.length s + String.length t.
Proof.
  induction s as [|c s IH]; [done|]. rewrite append_cons. simpl. by rewrite IH.
Qed.

Lemma starts_space_lower s : starts_space (Py.lower s) = starts_space s.
Proof. destruct s; simpl; [done|apply isspace_lower_char]. Qed.

Lemma ends_space_lower s : ends_space (Py.lower s) = ends_space s.
Proof.
  induction s as [|c s IH]; [done|]. destruct s as [|d s].
  - simpl. apply isspace_lower_char.
  - by rewrite ends_space_cons, <- IH.
Qed.

Lemma weather_reported s :
  outcome (get_weather (PStr s)) = inr weather_report →
  Py.lower s = "new york".
Proof.
  unfold get_weather.
  destruct (String.eqb_spec (Py.lower s) "new york") as [|Hne]; [done|].
  intros H.
  apply (f_equal (λ o, match o with inr r => r !! "status" | inl _ => None end))
    in H. done.
Qed.

Lemma weather_refused s :
  Py.lower s ≠ "new york" →
  get_weather (PStr s) = Run [] (inr (weather_unavailable s)).
Proof.
  intros Hne. unfold get_weather.
  by destruct (String.eqb_spec (Py.lower s) "new york").
Qed.

(** X13. [get_weather] reports only for "new york" in any mix of letter
    cases. A spelling with an underscore or a hyphen, or with whitespace
    around the name, gets the error with the input quoted, although
    [get_current_time] takes it for the same city. *)
Theorem weather_refuses_other_spellings s :
  outcome (get_weather (PStr s)) = inr weather_report →
  Py.lower s = "new york"
  ∧ occurs "_" s = false ∧ occurs "-" s = false ∧ Py.strip s = s
  ∧ ∀ l r, blank l = true → blank r = true → l +:+ r ≠ EmptyString →
      same_city (l +:+ s +:+ r) s
      ∧ get_weather (PStr (l +:+ s +:+ r))
        = Run [] (inr (weather_unavailable (l +:+ s +:+ r))).
Proof.
  intros Hlower%weather_reported. split_and!; [done| | | |].
  - by rewrite <- (occurs_lower "_"), Hlower
      by apply eqb_lower_char_underscore.
  - by rewrite <- (occurs_lower "-"), Hlower by apply eqb_lower_char_hyphen.
  - assert (starts_space s = false) as Hstart
      by by rewrite <- starts_space_lower, Hlower.
    assert (ends_space s = false) as Hend
      by by rewrite <- ends_space_lower, Hlower.
    unfold Py.strip. by rewrite lstrip_fixed, rstrip_fixed.
  - intros l r Hl Hr Hpad. split; [by apply same_city_around|].
    apply weather_refused. intros Hpadded%(f_equal String.length).
    apply (f_equal String.length) in Hlower.
    rewrite length_lower in Hpadded, Hlower.
    rewrite !length_append, Hlower in Hpadded. simpl in Hpadded.
    destruct l, r; simpl in *; try lia. done.
Qed.

Lemma weather_refuses_other_spellings_witness :
  get_weather (PStr "NEW York") = Run [] (inr weather_report)
  ∧ get_weather (PStr " NEW York")
    = Run [] (inr (weather_unavailable " NEW York"))
  ∧ get_weather (PStr "new_york") = Run [] (inr (weather_unavailable "new_york")).
Proof.
  split; [done|]. split; [|done].
  assert (outcome (get_weather (PStr "NEW York")) = inr weather_report)
    as Hok by done.
  exact (proj2 (proj2 (proj2 (proj2 (proj2
           (weather_refuses_other_spellings "NEW York" Hok))))
           " " EmptyString eq_refl eq_refl ltac:(done))).
Defined.

(** X14. A string for which [get_weather] reports is "New York" for the
    time tool as well: on every host it has the candidates of
    "New York", and [get_current_time] resolves it to a timezone exactly
    when it resolves "New York" to that timezone. *)
Theorem weather_city_is_new_york_for_time (h : host) s :
  outcome (get_weather (PStr s)) = inr weather_report →
  same_city s "New York"
  ∧ candidates_of h s = candidates_of h "New York"
  ∧ ∀ tz, (∃ report, resolve_time h (PStr s) = Some (Success tz report))
          ↔ (∃ report,
               resolve_time h (PStr "New York") = Some (Success tz report)).
Proof.
  intros Hlower%weather_reported.
  assert (same_city s "New York") as Hsame by by apply same_city_case.
  assert (candidates_of h s = candidates_of h "New York") as Hcand.
  { unfold candidates_of.
    by rewrite (candidates_key h s "New York" (same_city_key _ _ Hsame)). }
  assert (s ≠ EmptyString) as Hne by by intros ->.
  assert (occurs "/" s = false) as Hslash.
  { by rewrite <- occurs_lower_slash, Hlower. }
  split_and!; [done|done|]. intros tz.
  rewrite !success_iff by done. by rewrite Hcand.
Qed.

Lemma weather_city_is_new_york_for_time_witness :
  let h := fixed_host some_zones [] in
  candidates_of h "nEW yORK" = candidates_of h "New York"
  ∧ candidates_of h "New York" = ["America/New_York"].
Proof.
  intros h. split; [|by vm_compute].
  assert (outcome (get_weather (PStr "nEW yORK")) = inr weather_report)
    as Hok by done.
  exact (proj1 (proj2 (weather_city_is_new_york_for_time h "nEW yORK" Hok))).
Defined.

(** X15. On [None], a bool or an int [get_weather] raises an
    [AttributeError] (it has no check of its input), where
    [get_current_time] returns the invalid-input dictionary. *)
Theorem weather_raises_on_non_string (h : host) city :
  city = PNone ∨ (∃ b, city = PBool b) ∨ (∃ n, city = PInt n) →
  get_weather city = Run [] (inl (no_lower city))
  ∧ exn_class (no_lower city) = "AttributeError"
  ∧ get_current_time h city = Run [] (inr invalid_input).
Proof.
  intros [->|[[b ->]|[n ->]]]; split_and!; try done.
  all: apply get_current_time_not_str; [done|by eexists].
Qed.

Lemma weather_raises_on_non_string_witness :
  get_weather PNone
  = Run [] (inl (Raise "AttributeError"
                       "'NoneType' object has no attribute 'lower'"))
  ∧ get_current_time (fixed_host some_zones []) PNone
    = Run [] (inr invalid_input).
Proof.
  pose proof (weather_raises_on_non_string (fixed_host some_zones []) PNone
                (or_introl eq_refl)) as (Hraise & _ & Hreturn).
  by split.
Defined.

End Weather.

(** ** Properties of the model configuration *)

(** X16. The module calls [LiteLlm] once, and what the constructor
    gives or raises is the outcome of the module. In the keyword
    arguments of that call, [LITELLM_MODEL_SPECIAL_TOKENS] is tested for
    presence only: any non-empty value (also "false" or "0") leaves
    [extra_body] out; when the variable is unset or empty, [extra_body]
    switches [skip_special_tokens] off. The model name, the base URL and
    the key are the values of their variables in both cases, [None] for
    a variable that is not set; so with a constructor that raises on a
    missing model name, the module raises when
    [LITELLM_MODEL_MODEL_NAME] is not set, whatever the flag. *)
Theorem special_tokens_is_a_presence_flag {Model : Type}
    (LiteLlm : LiteLlm_kwargs → exn + Model) load_dotenv os_environ :
  let env := load_dotenv os_environ in
  ∃ kwargs,
    litellm_model LiteLlm load_dotenv os_environ = LiteLlm kwargs
    ∧ (extra_body kwargs = None
       ↔ ∃ v, env !! "LITELLM_MODEL_SPECIAL_TOKENS" = Some v
              ∧ v ≠ EmptyString)
    ∧ (extra_body kwargs = Some {[ "skip_special_tokens" := false ]}
       ↔ env !! "LITELLM_MODEL_SPECIAL_TOKENS" = None
         ∨ env !! "LITELLM_MODEL_SPECIAL_TOKENS" = Some EmptyString)
    ∧ model kwargs = env !! "LITELLM_MODEL_MODEL_NAME"
    ∧ api_base kwargs = env !! "LITELLM_MODEL_API_BASE"
    ∧ api_key kwargs = env !! "LITELLM_MODEL_API_KEY"
    ∧ ((∀ k, model k = None → ∃ e, LiteLlm k = inl e) →
       env !! "LITELLM_MODEL_MODEL_NAME" = None →
       ∃ e, litellm_model LiteLlm load_dotenv os_environ = inl e).
Proof.
  intros env. unfold litellm_model, getenv_bool, getenv. fold env.
  destruct (env !! "LITELLM_MODEL_SPECIAL_TOKENS") as [v|] eqn:Hflag.
  - destruct (String.eqb_spec v EmptyString) as [->|Hv]; simpl.
    + eexists. split; [done|]. simpl. split_and!; try done.
      * split; [done|]. by intros (v & [= <-] & ?).
      * split; auto.
      * intros Hstrict Hname. apply Hstrict. simpl. done.
    + eexists. split; [done|]. simpl. split_and!; try done.
      * split; eauto.
      * split; [done|]. by intros [|[= ->]].
      * intros Hstrict Hname. apply Hstrict. simpl. done.
  - eexists. split; [done|]. simpl. split_and!; try done.
    + split; [done|]. by intros (v & ? & ?).
    + split; auto.
    + intros Hstrict Hname. apply Hstrict. simpl. done.
Qed.

Lemma special_tokens_is_a_presence_flag_witness :
  litellm_model strict_LiteLlm id
    {[ "LITELLM_MODEL_SPECIAL_TOKENS" := "false";
       "LITELLM_MODEL_MODEL_NAME" := "openai/some-model" ]}
  = inr {| model := Some "openai/some-model"; api_base := None;
           api_key := None; extra_body := None |}
  ∧ ∃ e, litellm_model strict_LiteLlm id
           {[ "LITELLM_MODEL_SPECIAL_TOKENS" := "false" ]} = inl e.
Proof.
  split; [by vm_compute|].
  destruct (special_tokens_is_a_presence_flag strict_LiteLlm id
              {[ "LITELLM_MODEL_SPECIAL_TOKENS" := "false" ]})
    as (kwargs & _ & _ & _ & _ & _ & _ & Hraises).
  apply Hraises; [|done].
  intros k Hk. unfold strict_LiteLlm. rewrite Hk. by eexists.
Defined.

(** ** The further properties on concrete hosts *)

Lemma search_selects_from_catalog_witness :
  let h := fixed_host some_zones [] in
  NoDup (tzdata h) ∧ NoDup (candidates_of h "o").
Proof.
  intros h. assert (NoDup (tzdata h)) as Hnodup by compute_done.
  split; [exact Hnodup|].
  exact (proj2 (proj2 (search_selects_from_catalog h "o")) Hnodup).
Defined.

Lemma candidates_contain_query_witness :
  let h := fixed_host some_zones [] in
  "America/Knox_IN" ∈ candidates_of h "nox"
  ∧ partial_match (_normalize_city "nox") "America/Knox_IN".
Proof.
  intros h. assert ("America/Knox_IN" ∈ candidates_of h "nox") as Hin
    by compute_done.
  split; [exact Hin|].
  exact (proj2 (proj1 (candidates_contain_query h "nox") _ Hin)).
Defined.

Lemma hyphen_segment_never_exact_witness :
  let h := fixed_host some_zones [] in
  final_segment "GMT-0" = "GMT-0"
  ∧ candidates_of h "GMT-0" = []
  ∧ ¬ exact_match (_normalize_city "GMT-0") "GMT-0".
Proof.
  intros h. split; [done|]. split; [by vm_compute|].
  exact (proj1 (hyphen_segment_never_exact h "GMT-0" "GMT-0"
                  (or_introl eq_refl))).
Defined.

Lemma unique_exact_match_resolves_witness :
  let h := fixed_host some_zones [] in
  resolve_time h (PStr " taipei ")
  = Some (Success "Asia/Taipei"
            "The current time in  taipei  is 2025-01-01 08:00:00 CST+0800").
Proof.
  intros h.
  assert (" taipei " ≠ EmptyString) as Hne by done.
  assert (NoDup (tzdata h)) as Hnodup by compute_done.
  assert ("Asia/Taipei" ∈ tzdata h) as Hin by compute_done.
  assert (exact_match (_normalize_city " taipei ") "Asia/Taipei") as Hex
    by by apply exact_match_spec.
  assert (∀ tz', tz' ∈ tzdata h →
            exact_match (_normalize_city " taipei ") tz' →
            tz' = "Asia/Taipei") as Honly.
  { intros tz' Hin' Hex'%exact_match_spec. revert tz' Hin' Hex'.
    apply (proj1 (Forall_forall
                    (λ tz', Py.lower (final_segment tz')
                            = Py.lower (_normalize_city " taipei ") →
                            tz' = "Asia/Taipei") (tzdata h))).
    compute_done. }
  exact (proj2 (unique_exact_match_resolves h " taipei " "Asia/Taipei"
                  "Asia/Taipei" Hne Hnodup Hin Hex Honly eq_refl)).
Defined.

Lemma success_names_constructed_zone_witness :
  let h := fixed_host some_zones [] in
  resolve_time h (PStr "tokyo")
  = Some (Success "Asia/Tokyo"
            "The current time in tokyo is 2025-01-01 08:00:00 CST+0800")
  ∧ ∃ q z, PStr "tokyo" = PStr q ∧ q ≠ EmptyString
           ∧ zoneinfo_load h "Asia/Tokyo" = inr z
           ∧ "The current time in tokyo is 2025-01-01 08:00:00 CST+0800"
             = report_at h q (clock h z)
           ∧ ((Py.contains "/" q = true ∧ "Asia/Tokyo" = q)
              ∨ (Py.contains "/" q = false
                 ∧ candidates_of h q = ["Asia/Tokyo"]
                 ∧ "Asia/Tokyo" ∈ tzdata h)).
Proof.
  intros h.
  assert (resolve_time h (PStr "tokyo")
          = Some (Success "Asia/Tokyo"
                    "The current time in tokyo is 2025-01-01 08:00:00 CST+0800"))
    as Hres by by vm_compute.
  split; [exact Hres|].
  exact (success_names_constructed_zone h (PStr "tokyo") _ _ Hres).
Defined.

Lemma call_discipline_witness :
  let h := fixed_host some_zones [] in
  CallNow ∈ calls (get_current_time h (PStr "Asia/Tokyo"))
  ∧ count_call CallNow (calls (get_current_time h (PStr "Asia/Tokyo"))) ≤ 1.
Proof.
  intros h.
  pose proof (call_discipline h (PStr "Asia/Tokyo")) as (_ & Hnow & _ & Hiff).
  split; [|exact Hnow]. apply Hiff. eexists _, _. by vm_compute.
Defined.

Lemma ambiguous_offers_catalog_identifiers_witness :
  let h := fixed_host some_zones [] in
  resolve_time h (PStr "kno")
  = Some (Ambiguous ["America/Indiana/Knox"; "America/Knox_IN"])
  ∧ ∃ q, PStr "kno" = PStr q
         ∧ ["America/Indiana/Knox"; "America/Knox_IN"]
           = take 10 (Py.sorted (candidates_of h q)).
Proof.
  intros h.
  assert (resolve_time h (PStr "kno")
          = Some (Ambiguous ["America/Indiana/Knox"; "America/Knox_IN"]))
    as Hres by by vm_compute.
  destruct (ambiguous_offers_catalog_identifiers h (PStr "kno") _ Hres)
    as (q & Hq & Htop & _).
  split; [exact Hres|]. by exists q.
Defined.

Lemma slashless_exact_match_is_a_dead_end_witness :
  let h := fixed_host ["Etc/UTC"; "UTC"] [] in
  candidates_of h "utc" = ["Etc/UTC"; "UTC"]
  ∧ resolve_time h (PStr "UTC") = resolve_time h (PStr "utc")
  ∧ resolve_time h (PStr "UTC") = Some (Ambiguous ["Etc/UTC"; "UTC"]).
Proof.
  intros h.
  assert (candidates_of h "utc" = ["Etc/UTC"; "UTC"]) as Hcand by by vm_compute.
  split; [exact Hcand|].
  assert ("UTC" ∈ candidates_of h "utc") as Hin by compute_done.
  assert (exact_match (_normalize_city "utc") "UTC") as Hex
    by by apply exact_match_spec.
  assert (1 < length (candidates_of h "utc")) as Hmany by (vm_compute; lia).
  exact (proj2 (slashless_exact_match_is_a_dead_end h "utc" "UTC"
                  ltac:(done) ltac:(done) Hin Hex eq_refl) Hmany).
Defined.

Lemma slashless_identifier_finds_itself_witness :
  let h := fixed_host ["Etc/UTC"; "UTC"] [] in
  "UTC" ∈ candidates_of h "UTC"
  ∧ resolve_time h (PStr "UTC") = Some (Ambiguous ["Etc/UTC"; "UTC"]).
Proof.
  intros h. split; [|by vm_compute].
  assert ("UTC" ∈ tzdata h) as Hin by compute_done.
  exact (proj1 (slashless_identifier_finds_itself h "UTC" Hin ltac:(done)
                  eq_refl eq_refl)).
Defined.
